(** * The todo application: repository and service layers over a document store

    Shallow embedding of [app/models/todo.py], [app/repositories/todo_repository.py]
    and [app/services/todo_service.py].  The MongoDB collection is an explicit
    state (a list of documents in natural order, each document a finite map from
    field names to BSON values); the driver's choices (the identifier generated
    for an insert, the reading of the clock) are arguments of the operations.
    Instants are integers in the resolution of the store. *)

From Stdlib Require Import ZArith NArith Ascii String.
From stdpp Require Import gmap strings list fin_maps.

Local Open Scope string_scope.
Local Open Scope list_scope.
Local Open Scope Z_scope.

(** ** Exceptions and the monad of repository code *)

Inductive exn :=
  | InvalidId
  | TypeError
  | ValueError
  | ValidationError
  | DuplicateKeyError
  | ZeroDivisionError
  | RuntimeError
  | KeyError
  | AttributeError
  | ConnectionFailure.

Inductive result (A : Type) :=
  | Ok (a : A)
  | Raise (e : exn).
Arguments Ok {A} a.
Arguments Raise {A} e.

(** ** bson.ObjectId *)

Module ObjectId.

(** Twelve bytes, read as one big-endian number. *)
Definition t := N.

Definition hex_digit_value (c : ascii) : option N :=
  let n := N_of_ascii c in
  if (48 <=? n)%N && (n <=? 57)%N then Some (n - 48)%N
  else if (97 <=? n)%N && (n <=? 102)%N then Some (n - 87)%N
  else if (65 <=? n)%N && (n <=? 70)%N then Some (n - 55)%N
  else None.

(** [bytes.fromhex] on a string of hexadecimal digits, most significant first. *)
Fixpoint fromhex (s : string) (acc : N) : option N :=
  match s with
  | EmptyString => Some acc
  | String c s' =>
      match hex_digit_value c with
      | Some d => fromhex s' (16 * acc + d)%N
      | None => None
      end
  end.

(** [ObjectId(oid)] for a [str] argument: 24 hexadecimal characters, or
    [InvalidId]. *)
Definition new (oid : string) : result t :=
  if Nat.eqb (String.length oid) 24 then
    match fromhex oid 0%N with
    | Some n => Ok n
    | None => Raise InvalidId
    end
  else Raise InvalidId.

(** [ObjectId.is_valid(oid)]: try the constructor, catch [InvalidId]. *)
Definition is_valid (oid : string) : bool :=
  match new oid with
  | Ok _ => true
  | Raise _ => false
  end.

Definition hex_digit (d : N) : ascii :=
  if (d <? 10)%N then ascii_of_N (48 + d) else ascii_of_N (87 + d).

(** [binascii.hexlify]: [k] lower-case digits of [n], prepended to [acc]. *)
Fixpoint hexlify (k : nat) (n : N) (acc : string) : string :=
  match k with
  | O => acc
  | S k' => hexlify k' (n / 16)%N (String (hex_digit (n mod 16)%N) acc)
  end.

(** [str(oid)] *)
Definition str (o : t) : string := hexlify 24 o "".

(** The identifiers the driver can generate: twelve bytes. *)
Definition wf (o : t) : Prop := (o < 2 ^ 96)%N.

End ObjectId.

(** ** BSON values and documents *)

Inductive Value :=
  | VNull
  | VStr (s : string)
  | VOid (o : ObjectId.t)
  | VDate (t : Z).

Global Instance Value_eq_dec : EqDecision Value.
Proof. solve_decision. Defined.

Abbreviation Document := (gmap string Value).
Abbreviation Collection := (list (gmap string Value)).

(** Canonical type order of BSON values used by comparisons and sorts. *)
Definition bson_type_rank (v : Value) : Z :=
  match v with
  | VNull => 1
  | VStr _ => 3
  | VOid _ => 7
  | VDate _ => 9
  end.

Definition bson_compare (a b : Value) : comparison :=
  match a, b with
  | VNull, VNull => Eq
  | VStr x, VStr y => String.compare x y
  | VOid x, VOid y => N.compare x y
  | VDate x, VDate y => Z.compare x y
  | _, _ => Z.compare (bson_type_rank a) (bson_type_rank b)
  end.

Definition bson_leb (a b : Value) : bool :=
  match bson_compare a b with
  | Gt => false
  | _ => true
  end.

(** ** app/models/todo.py *)

Inductive TodoStatus := PENDING | IN_PROGRESS | COMPLETED.
Inductive TodoPriority := LOW | MEDIUM | HIGH.

Global Instance TodoStatus_eq_dec : EqDecision TodoStatus.
Proof. solve_decision. Defined.
Global Instance TodoPriority_eq_dec : EqDecision TodoPriority.
Proof. solve_decision. Defined.

(** Both enumerations derive from [str]: a member is its value as far as the
    store and dictionary comparisons are concerned. *)
Definition TodoStatus_value (s : TodoStatus) : string :=
  match s with
  | PENDING => "pending"
  | IN_PROGRESS => "in_progress"
  | COMPLETED => "completed"
  end.

Definition TodoPriority_value (p : TodoPriority) : string :=
  match p with
  | LOW => "low"
  | MEDIUM => "medium"
  | HIGH => "high"
  end.

Definition TodoStatus_of_value (s : string) : option TodoStatus :=
  if String.eqb s "pending" then Some PENDING
  else if String.eqb s "in_progress" then Some IN_PROGRESS
  else if String.eqb s "completed" then Some COMPLETED
  else None.

Definition TodoPriority_of_value (s : string) : option TodoPriority :=
  if String.eqb s "low" then Some LOW
  else if String.eqb s "medium" then Some MEDIUM
  else if String.eqb s "high" then Some HIGH
  else None.

Definition opt_value {A} (f : A → Value) (o : option A) : Value :=
  match o with
  | Some a => f a
  | None => VNull
  end.

(** Field constraints of [TodoBase]. *)
Definition title_ok (s : string) : bool :=
  Nat.leb 1 (String.length s) && Nat.leb (String.length s) 200.
Definition description_ok (s : string) : bool :=
  Nat.leb (String.length s) 1000.

(** [TodoCreate] adds nothing to [TodoBase]. *)
Module TodoCreate.
Record t := mk {
  title : string;
  description : option string;
  status : TodoStatus;
  priority : TodoPriority;
  due_date : option Z
}.

(** What pydantic checks when the model is built. *)
Definition valid (x : t) : bool :=
  title_ok (title x) &&
  match description x with Some s => description_ok s | None => true end.

(** [.dict()] *)
Definition dict (x : t) : gmap string Value :=
  <["title" := VStr (title x)]>
  (<["description" := opt_value VStr (description x)]>
  (<["status" := VStr (TodoStatus_value (status x))]>
  (<["priority" := VStr (TodoPriority_value (priority x))]>
  (<["due_date" := opt_value VDate (due_date x)]> ∅)))).
End TodoCreate.

Module TodoUpdate.
Record t := mk {
  title : option string;
  description : option string;
  status : option TodoStatus;
  priority : option TodoPriority;
  due_date : option Z
}.

Definition valid (x : t) : bool :=
  match title x with Some s => title_ok s | None => true end &&
  match description x with Some s => description_ok s | None => true end.

Definition dict (x : t) : gmap string Value :=
  <["title" := opt_value VStr (title x)]>
  (<["description" := opt_value VStr (description x)]>
  (<["status" := opt_value (λ s, VStr (TodoStatus_value s)) (status x)]>
  (<["priority" := opt_value (λ p, VStr (TodoPriority_value p)) (priority x)]>
  (<["due_date" := opt_value VDate (due_date x)]> ∅)))).
End TodoUpdate.

Module TodoInDB.
Record t := mk {
  id : ObjectId.t;
  title : string;
  description : option string;
  status : TodoStatus;
  priority : TodoPriority;
  due_date : option Z;
  created_at : Z;
  updated_at : Z
}.

(** [PyObjectId.validate] *)
Definition parse_id (v : option Value) : result ObjectId.t :=
  match v with
  | Some (VOid o) => Ok o
  | Some (VStr s) =>
      if ObjectId.is_valid s then
        match ObjectId.new s with
        | Ok o => Ok o
        | Raise _ => Raise ValidationError
        end
      else Raise ValidationError
  | _ => Raise ValidationError
  end.

Definition parse_title (v : option Value) : result string :=
  match v with
  | Some (VStr s) => if title_ok s then Ok s else Raise ValidationError
  | _ => Raise ValidationError
  end.

Definition parse_description (v : option Value) : result (option string) :=
  match v with
  | None | Some VNull => Ok None
  | Some (VStr s) => if description_ok s then Ok (Some s) else Raise ValidationError
  | _ => Raise ValidationError
  end.

Definition parse_status (v : option Value) : result TodoStatus :=
  match v with
  | None => Ok PENDING
  | Some (VStr s) =>
      match TodoStatus_of_value s with
      | Some x => Ok x
      | None => Raise ValidationError
      end
  | _ => Raise ValidationError
  end.

Definition parse_priority (v : option Value) : result TodoPriority :=
  match v with
  | None => Ok MEDIUM
  | Some (VStr s) =>
      match TodoPriority_of_value s with
      | Some x => Ok x
      | None => Raise ValidationError
      end
  | _ => Raise ValidationError
  end.

Definition parse_due_date (v : option Value) : result (option Z) :=
  match v with
  | None | Some VNull => Ok None
  | Some (VDate d) => Ok (Some d)
  | _ => Raise ValidationError
  end.

Definition parse_datetime (v : option Value) : result Z :=
  match v with
  | Some (VDate d) => Ok d
  | _ => Raise ValidationError
  end.

(** The constructor [TodoInDB] applied to the fields of a stored document.
    Every document the store hands out carries [_id],
    and every document written by the repository carries both timestamps,
    so the three default factories never run on a stored document; a
    document lacking one of these keys is not accepted here. *)
Definition of_dict (doc : gmap string Value) : result t :=
  match parse_id (doc !! "_id"), parse_title (doc !! "title"),
        parse_description (doc !! "description"), parse_status (doc !! "status"),
        parse_priority (doc !! "priority"), parse_due_date (doc !! "due_date"),
        parse_datetime (doc !! "created_at"), parse_datetime (doc !! "updated_at") with
  | Ok i, Ok t, Ok d, Ok s, Ok p, Ok dd, Ok c, Ok u => Ok (mk i t d s p dd c u)
  | _, _, _, _, _, _, _, _ => Raise ValidationError
  end.
End TodoInDB.

Module TodoResponse.
Record t := mk {
  id : string;
  title : string;
  description : option string;
  status : TodoStatus;
  priority : TodoPriority;
  due_date : option Z;
  created_at : Z;
  updated_at : Z
}.
End TodoResponse.

Module TodoListResponse.
Record t := mk {
  todos : list TodoResponse.t;
  total : Z;
  page : Z;
  size : Z;
  pages : Z
}.
End TodoListResponse.

(** ** The document store (the part of MongoDB the repository uses) *)

(** Conditions a query puts on one field: [{f: v}], [{f: {"$lt": v}}] and
    [{f: {"$ne": v}}]. *)
Inductive Cond :=
  | CEq (v : Value)
  | CLt (v : Value)
  | CNe (v : Value).

Definition ASCENDING : Z := 1.
Definition DESCENDING : Z := -1.

Module Store.

(** Equality with a literal matches the value itself; [null] also matches
    a missing field. *)
Definition field_eq (v : Value) (f : option Value) : bool :=
  match f with
  | Some x => bool_decide (x = v)
  | None => bool_decide (v = VNull)
  end.

(** [$lt] compares only within one type bracket. *)
Definition field_lt (v : Value) (f : option Value) : bool :=
  match f with
  | Some x =>
      (bson_type_rank x =? bson_type_rank v)%Z &&
      match bson_compare x v with Lt => true | _ => false end
  | None => false
  end.

Definition field_matches (c : Cond) (f : option Value) : bool :=
  match c with
  | CEq v => field_eq v f
  | CLt v => field_lt v f
  | CNe v => negb (field_eq v f)
  end.

Definition matches (q : gmap string Cond) (d : gmap string Value) : bool :=
  bool_decide (map_Forall (λ k c, field_matches c (d !! k) = true) q).

Definition find (q : gmap string Cond) (coll : Collection) : Collection :=
  List.filter (matches q) coll.

Definition find_one (q : gmap string Cond) (coll : Collection)
  : option (gmap string Value) :=
  List.find (matches q) coll.

Definition count_documents (q : gmap string Cond) (coll : Collection) : Z :=
  Z.of_nat (length (List.filter (matches q) coll)).

(** [insert_one]: the driver adds [_id] (the fresh identifier it generated)
    when the document has none; the store refuses a duplicate [_id]. *)
Definition insert_one (fresh : ObjectId.t) (doc : gmap string Value)
    (coll : Collection) : result Value * Collection :=
  let doc := match doc !! "_id" with
             | Some _ => doc
             | None => <["_id" := VOid fresh]> doc
             end in
  let inserted_id := default VNull (doc !! "_id") in
  if existsb (λ d, field_eq inserted_id (d !! "_id")) coll
  then (Raise DuplicateKeyError, coll)
  else (Ok inserted_id, coll ++ [doc]).

Record UpdateResult := { matched_count : Z; modified_count : Z }.

(** [update_one(q, {"$set": fields})]: the first matching document gets
    the fields; it counts as modified only when it actually changed. *)
Fixpoint update_one (q : gmap string Cond) (fields : gmap string Value)
    (coll : Collection) : UpdateResult * Collection :=
  match coll with
  | [] => ({| matched_count := 0; modified_count := 0 |}, [])
  | d :: rest =>
      if matches q d then
        let d' := fields ∪ d in
        ({| matched_count := 1;
            modified_count := if decide (d' = d) then 0 else 1 |},
         d' :: rest)
      else
        let '(r, rest') := update_one q fields rest in
        (r, d :: rest')
  end.

(** [delete_one(q)]: removes the first matching document; the result is
    [deleted_count]. *)
Fixpoint delete_one (q : gmap string Cond) (coll : Collection)
    : Z * Collection :=
  match coll with
  | [] => (0, [])
  | d :: rest =>
      if matches q d then (1, rest)
      else
        let '(n, rest') := delete_one q rest in
        (n, d :: rest')
  end.

(** *** Cursors *)

Definition sort_key (field : string) (d : gmap string Value) : Value :=
  default VNull (d !! field).

Fixpoint sort_compare (sort_query : list (string * Z))
    (a b : gmap string Value) : comparison :=
  match sort_query with
  | [] => Eq
  | (field, direction) :: rest =>
      match bson_compare (sort_key field a) (sort_key field b) with
      | Eq => sort_compare rest a b
      | c => if (direction =? ASCENDING)%Z then c else CompOpp c
      end
  end.

Definition sort_leb (sort_query : list (string * Z))
    (a b : gmap string Value) : bool :=
  match sort_compare sort_query a b with
  | Gt => false
  | _ => true
  end.

Fixpoint sort_insert (leb : gmap string Value → gmap string Value → bool)
    (x : gmap string Value) (l : Collection) : Collection :=
  match l with
  | [] => [x]
  | y :: l' => if leb x y then x :: l else y :: sort_insert leb x l'
  end.

(** Documents with equal keys keep their natural order. *)
Definition sort (sort_query : list (string * Z)) (docs : Collection)
    : Collection :=
  foldr (sort_insert (sort_leb sort_query)) [] docs.

(** [Cursor.skip] refuses a negative count. *)
Definition skip (n : Z) (docs : Collection) : result Collection :=
  if (n <? 0)%Z then Raise ValueError else Ok (drop (Z.to_nat n) docs).

(** [Cursor.limit]: zero means no limit, a negative limit is its absolute
    value. *)
Definition limit (n : Z) (docs : Collection) : Collection :=
  if (n =? 0)%Z then docs else take (Z.to_nat (Z.abs n)) docs.

End Store.

(** ** State and exceptions threaded through repository code *)

Definition M (A : Type) : Type := Collection → result A * Collection.

Definition ret {A} (a : A) : M A := λ c, (Ok a, c).
Definition raise {A} (e : exn) : M A := λ c, (Raise e, c).
Definition lift {A} (r : result A) : M A := λ c, (r, c).
Definition bind {A B} (m : M A) (k : A → M B) : M B :=
  λ c, match m c with
       | (Ok a, c') => k a c'
       | (Raise e, c') => (Raise e, c')
       end.
(** A read of the collection. *)
Definition read {A} (f : Collection → A) : M A := λ c, (Ok (f c), c).
(** A write: the operation returns its result and the new collection. *)
Definition write {A} (f : Collection → A * Collection) : M A :=
  λ c, let '(a, c') := f c in (Ok a, c').

Notation "'let!' x ':=' m 'in' k" := (bind m (λ x, k))
  (at level 10, x name, m at level 100, k at level 200).
Notation "'let!' ' p ':=' m 'in' k" := (bind m (λ x, match x with p => k end))
  (at level 10, p strict pattern, m at level 100, k at level 200).

(** [str.lower], on the ASCII range. *)
Definition lower_char (c : ascii) : ascii :=
  let n := N_of_ascii c in
  if (65 <=? n)%N && (n <=? 90)%N then ascii_of_N (n + 32) else c.

Fixpoint lower (s : string) : string :=
  match s with
  | EmptyString => EmptyString
  | String c s' => String (lower_char c) (lower s')
  end.

(** ** app/repositories/todo_repository.py *)

Module TodoRepository.

(** The loop [async for todo in cursor: todos.append(TodoInDB( ... ))]. *)
Fixpoint collect (docs : Collection) : result (list TodoInDB.t) :=
  match docs with
  | [] => Ok []
  | d :: rest =>
      match TodoInDB.of_dict d with
      | Ok t =>
          match collect rest with
          | Ok ts => Ok (t :: ts)
          | Raise e => Raise e
          end
      | Raise e => Raise e
      end
  end.

(** [fresh] is the identifier the driver generates for the insert and
    [now] the reading of [datetime.utcnow()]. *)
Definition create_todo (fresh : ObjectId.t) (now : Z)
    (todo_data : TodoCreate.t) : M TodoInDB.t :=
  let todo_dict := TodoCreate.dict todo_data in
  let todo_dict :=
    <["created_at" := VDate now]> (<["updated_at" := VDate now]> todo_dict) in
  let! inserted_id := Store.insert_one fresh todo_dict in
  let! created_todo := read (Store.find_one {["_id" := CEq inserted_id]}) in
  match created_todo with
  | Some doc => lift (TodoInDB.of_dict doc)
  | None => raise TypeError
  end.

Definition get_todo_by_id (todo_id : string) : M (option TodoInDB.t) :=
  if negb (ObjectId.is_valid todo_id) then ret None
  else
    let! oid := lift (ObjectId.new todo_id) in
    let! todo := read (Store.find_one {["_id" := CEq (VOid oid)]}) in
    match todo with
    | Some doc =>
        let! t := lift (TodoInDB.of_dict doc) in
        ret (Some t)
    | None => ret None
    end.

Definition get_todos (skip limit : Z) (status : option TodoStatus)
    (priority : option TodoPriority) (sort_by sort_order : string)
    : M (list TodoInDB.t * Z) :=
  let filter_query : gmap string Cond := ∅ in
  let filter_query :=
    match status with
    | Some s => <["status" := CEq (VStr (TodoStatus_value s))]> filter_query
    | None => filter_query
    end in
  let filter_query :=
    match priority with
    | Some p => <["priority" := CEq (VStr (TodoPriority_value p))]> filter_query
    | None => filter_query
    end in
  let sort_direction :=
    if String.eqb (lower sort_order) "desc" then DESCENDING else ASCENDING in
  let sort_query := [(sort_by, sort_direction)] in
  let! total := read (Store.count_documents filter_query) in
  let! cursor :=
    (λ coll,
       (match Store.skip skip (Store.sort sort_query (Store.find filter_query coll)) with
        | Ok docs => Ok (Store.limit limit docs)
        | Raise e => Raise e
        end, coll)) in
  let! todos := lift (collect cursor) in
  ret (todos, total).

Definition update_todo (now : Z) (todo_id : string)
    (todo_data : TodoUpdate.t) : M (option TodoInDB.t) :=
  if negb (ObjectId.is_valid todo_id) then ret None
  else
    let update_data : gmap string Value :=
      filter (λ kv, kv.2 ≠ VNull) (TodoUpdate.dict todo_data) in
    if decide (update_data = ∅) then get_todo_by_id todo_id
    else
      let update_data := <["updated_at" := VDate now]> update_data in
      let! oid := lift (ObjectId.new todo_id) in
      let! result :=
        write (Store.update_one {["_id" := CEq (VOid oid)]} update_data) in
      if negb (Store.modified_count result =? 0)%Z then get_todo_by_id todo_id
      else ret None.

Definition delete_todo (todo_id : string) : M bool :=
  if negb (ObjectId.is_valid todo_id) then ret false
  else
    let! oid := lift (ObjectId.new todo_id) in
    let! deleted_count := write (Store.delete_one {["_id" := CEq (VOid oid)]}) in
    ret (deleted_count >? 0)%Z.

Definition get_todos_by_status (status : TodoStatus) : M (list TodoInDB.t) :=
  let! cursor :=
    read (Store.find {["status" := CEq (VStr (TodoStatus_value status))]}) in
  lift (collect cursor).

Definition get_overdue_todos (now : Z) : M (list TodoInDB.t) :=
  let! cursor :=
    read (Store.find
            (<["due_date" := CLt (VDate now)]>
             (<["status" := CNe (VStr (TodoStatus_value COMPLETED))]> ∅))) in
  lift (collect cursor).

End TodoRepository.

(** ** app/core/database.py *)

Module Database.

(** A driver client is open until [close()] is called on it. *)
Inductive Client := Open | Closed.

(** The global [db]: class attributes [client] and [database], both [None]
    until [connect_to_mongo] assigns them.  The database handle is
    represented by the name it was opened under. *)
Record t := mk {
  client : option Client;
  database : option string
}.

Definition initial : t := {| client := None; database := None |}.

(** [connect_to_mongo]: both attributes are assigned before the ping; when
    the ping fails its exception is raised again, the assignments stay.
    [ping] is the outcome of [admin.command('ping')]. *)
Definition connect_to_mongo (database_name : string) (ping : result unit)
    (db : t) : result unit * t :=
  let db := {| client := Some Open; database := database db |} in
  let db := {| client := client db; database := Some database_name |} in
  match ping with
  | Ok _ => (Ok tt, db)
  | Raise e => (Raise e, db)
  end.


Definition get_database (db : t) : result string :=
  match database db with
  | None => Raise RuntimeError
  | Some d => Ok d
  end.

End Database.

(** ** app/services/todo_service.py *)

(** [ceil(total / size)], on the exact quotient. *)
Definition ceil_div (total size : Z) : result Z :=
  if (size =? 0)%Z then Raise ZeroDivisionError else Ok (- ((- total) / size)).

Module TodoService.

(** [TodoService()]: the constructor fetches the database handle. *)
Definition init (db : Database.t) : result string :=
  Database.get_database db.

Definition _convert_to_response (todo_in_db : TodoInDB.t) : TodoResponse.t :=
  {| TodoResponse.id := ObjectId.str (TodoInDB.id todo_in_db);
     TodoResponse.title := TodoInDB.title todo_in_db;
     TodoResponse.description := TodoInDB.description todo_in_db;
     TodoResponse.status := TodoInDB.status todo_in_db;
     TodoResponse.priority := TodoInDB.priority todo_in_db;
     TodoResponse.due_date := TodoInDB.due_date todo_in_db;
     TodoResponse.created_at := TodoInDB.created_at todo_in_db;
     TodoResponse.updated_at := TodoInDB.updated_at todo_in_db |}.

Definition create_todo (fresh : ObjectId.t) (now : Z)
    (todo_data : TodoCreate.t) : M TodoResponse.t :=
  let! todo_in_db := TodoRepository.create_todo fresh now todo_data in
  ret (_convert_to_response todo_in_db).

Definition get_todo (todo_id : string) : M (option TodoResponse.t) :=
  let! todo_in_db := TodoRepository.get_todo_by_id todo_id in
  match todo_in_db with
  | Some t => ret (Some (_convert_to_response t))
  | None => ret None
  end.

Definition get_todos (page size : Z) (status : option TodoStatus)
    (priority : option TodoPriority) (sort_by sort_order : string)
    : M TodoListResponse.t :=
  let skip := (page - 1) * size in
  let! '(todos_in_db, total) :=
    TodoRepository.get_todos skip size status priority sort_by sort_order in
  let todos := map _convert_to_response todos_in_db in
  let! pages := lift (if (total >? 0)%Z then ceil_div total size else Ok 1) in
  ret {| TodoListResponse.todos := todos;
         TodoListResponse.total := total;
         TodoListResponse.page := page;
         TodoListResponse.size := size;
         TodoListResponse.pages := pages |}.

Definition update_todo (now : Z) (todo_id : string)
    (todo_data : TodoUpdate.t) : M (option TodoResponse.t) :=
  let! todo_in_db := TodoRepository.update_todo now todo_id todo_data in
  match todo_in_db with
  | Some t => ret (Some (_convert_to_response t))
  | None => ret None
  end.

Definition delete_todo (todo_id : string) : M bool :=
  TodoRepository.delete_todo todo_id.

Definition get_todos_by_status (status : TodoStatus) : M (list TodoResponse.t) :=
  let! todos_in_db := TodoRepository.get_todos_by_status status in
  ret (map _convert_to_response todos_in_db).

Definition get_overdue_todos (now : Z) : M (list TodoResponse.t) :=
  let! todos_in_db := TodoRepository.get_overdue_todos now in
  ret (map _convert_to_response todos_in_db).

End TodoService.

(** ** app/api/v1/endpoints/todos.py *)

(** What a route hands to the framework: the returned value, sent with the
    status code of the route, an [HTTPException], or another exception
    that leaves the route. *)
Inductive HTTPResult (A : Type) :=
  | Response (status_code : Z) (body : A)
  | HTTPException (status_code : Z) (detail : string)
  | Unhandled (e : exn).
Arguments Response {A} status_code body.
Arguments HTTPException {A} status_code detail.
Arguments Unhandled {A} e.

Module Endpoints.
Section Routes.

(** [str(e)] of a caught exception, interpolated into the detail. *)
Variable str_exn : exn → string.

Definition failed {A} (what : string) (e : exn) : HTTPResult A :=
  HTTPException 500 (what ++ str_exn e)%string.

Definition create_todo (db : Database.t) (fresh : ObjectId.t) (now : Z)
    (todo_data : TodoCreate.t) (coll : Collection)
    : HTTPResult TodoResponse.t * Collection :=
  match TodoService.init db with
  | Raise e => (failed "Failed to create todo: " e, coll)
  | Ok _ =>
      match TodoService.create_todo fresh now todo_data coll with
      | (Ok todo, coll') => (Response 201 todo, coll')
      | (Raise e, coll') => (failed "Failed to create todo: " e, coll')
      end
  end.

(** In this route and in [get_todos_by_status] the parameter [status]
    hides the imported module [status]: the handler's
    [status.HTTP_500_INTERNAL_SERVER_ERROR] is an attribute lookup on the
    parameter (a [TodoStatus], or [None]), which raises [AttributeError]
    before any [HTTPException] is built. *)
Definition get_todos (db : Database.t) (page size : Z)
    (status : option TodoStatus) (priority : option TodoPriority)
    (sort_by sort_order : string) (coll : Collection)
    : HTTPResult TodoListResponse.t * Collection :=
  match TodoService.init db with
  | Raise e => (Unhandled AttributeError, coll)
  | Ok _ =>
      match TodoService.get_todos page size status priority sort_by sort_order
              coll with
      | (Ok r, coll') => (Response 200 r, coll')
      | (Raise e, coll') => (Unhandled AttributeError, coll')
      end
  end.

Definition get_todo (db : Database.t) (todo_id : string) (coll : Collection)
    : HTTPResult TodoResponse.t * Collection :=
  match TodoService.init db with
  | Raise e => (failed "Failed to retrieve todo: " e, coll)
  | Ok _ =>
      match TodoService.get_todo todo_id coll with
      | (Ok (Some todo), coll') => (Response 200 todo, coll')
      | (Ok None, coll') => (HTTPException 404 "Todo not found", coll')
      | (Raise e, coll') => (failed "Failed to retrieve todo: " e, coll')
      end
  end.

Definition update_todo (db : Database.t) (now : Z) (todo_id : string)
    (todo_data : TodoUpdate.t) (coll : Collection)
    : HTTPResult TodoResponse.t * Collection :=
  match TodoService.init db with
  | Raise e => (failed "Failed to update todo: " e, coll)
  | Ok _ =>
      match TodoService.update_todo now todo_id todo_data coll with
      | (Ok (Some updated_todo), coll') => (Response 200 updated_todo, coll')
      | (Ok None, coll') => (HTTPException 404 "Todo not found", coll')
      | (Raise e, coll') => (failed "Failed to update todo: " e, coll')
      end
  end.

Definition delete_todo (db : Database.t) (todo_id : string)
    (coll : Collection) : HTTPResult unit * Collection :=
  match TodoService.init db with
  | Raise e => (failed "Failed to delete todo: " e, coll)
  | Ok _ =>
      match TodoService.delete_todo todo_id coll with
      | (Ok true, coll') => (Response 204 tt, coll')
      | (Ok false, coll') => (HTTPException 404 "Todo not found", coll')
      | (Raise e, coll') => (failed "Failed to delete todo: " e, coll')
      end
  end.

Definition get_todos_by_status (db : Database.t) (status : TodoStatus)
    (coll : Collection) : HTTPResult (list TodoResponse.t) * Collection :=
  match TodoService.init db with
  | Raise e => (Unhandled AttributeError, coll)
  | Ok _ =>
      match TodoService.get_todos_by_status status coll with
      | (Ok todos, coll') => (Response 200 todos, coll')
      | (Raise e, coll') => (Unhandled AttributeError, coll')
      end
  end.

Definition get_overdue_todos (db : Database.t) (now : Z) (coll : Collection)
    : HTTPResult (list TodoResponse.t) * Collection :=
  match TodoService.init db with
  | Raise e => (failed "Failed to retrieve overdue todos: " e, coll)
  | Ok _ =>
      match TodoService.get_overdue_todos now coll with
      | (Ok todos, coll') => (Response 200 todos, coll')
      | (Raise e, coll') => (failed "Failed to retrieve overdue todos: " e, coll')
      end
  end.

End Routes.
End Endpoints.

(** ** fastapi-project: app/models.py, app/crud.py, app/routes.py *)

Module Users.
Section Crud.

(** [str()] of a datetime, for an [_id] of that type. *)
Variable str_datetime : Z → string.

Record User := { name : string; email : string }.

(** [user.dict()] *)
Definition User_dict (user : User) : gmap string Value :=
  <["name" := VStr (name user)]> (<["email" := VStr (email user)]> ∅).

(** [str(v)] of a value read from the store. *)
Definition str_value (v : Value) : string :=
  match v with
  | VNull => "None"
  | VStr s => s
  | VOid o => ObjectId.str o
  | VDate t => str_datetime t
  end.

(** Subscripting a document raises [KeyError] on a missing key. *)
Definition user_helper (user : gmap string Value)
    : result (gmap string Value) :=
  match user !! "_id" with
  | None => Raise KeyError
  | Some i =>
      match user !! "name" with
      | None => Raise KeyError
      | Some n =>
          match user !! "email" with
          | None => Raise KeyError
          | Some e =>
              Ok (<["id" := VStr (str_value i)]>
                    (<["name" := n]> (<["email" := e]> ∅)))
          end
      end
  end.

Definition create_user (fresh : ObjectId.t) (user : User)
    : M (gmap string Value) :=
  let! inserted_id := Store.insert_one fresh (User_dict user) in
  let! created_user := read (Store.find_one {["_id" := CEq inserted_id]}) in
  match created_user with
  | Some doc => lift (user_helper doc)
  | None => raise TypeError
  end.

Fixpoint helper_all (docs : Collection) : result (list (gmap string Value)) :=
  match docs with
  | [] => Ok []
  | d :: rest =>
      match user_helper d with
      | Ok u =>
          match helper_all rest with
          | Ok us => Ok (u :: us)
          | Raise e => Raise e
          end
      | Raise e => Raise e
      end
  end.

Definition get_users : M (list (gmap string Value)) :=
  let! cursor := read (Store.find ∅) in
  lift (helper_all cursor).

Definition get_user (id : string) : M (option (gmap string Value)) :=
  let! oid := lift (ObjectId.new id) in
  let! user := read (Store.find_one {["_id" := CEq (VOid oid)]}) in
  match user with
  | Some doc =>
      if decide (doc = ∅) then ret None
      else
        let! u := lift (user_helper doc) in
        ret (Some u)
  | None => ret None
  end.

Definition delete_user (id : string) : M bool :=
  let! oid := lift (ObjectId.new id) in
  let! deleted_count := write (Store.delete_one {["_id" := CEq (VOid oid)]}) in
  ret (deleted_count >? 0)%Z.

(** *** app/routes.py: no route catches anything.  (The framework's check
    of a returned value against [response_model] is not part of the routes.) *)

Definition run_route {A B} (m : M A) (k : A → HTTPResult B)
    (coll : Collection) : HTTPResult B * Collection :=
  match m coll with
  | (Ok a, coll') => (k a, coll')
  | (Raise e, coll') => (Unhandled e, coll')
  end.

Definition create (fresh : ObjectId.t) (user : User)
    : Collection → HTTPResult (gmap string Value) * Collection :=
  run_route (create_user fresh user) (Response 200).

Definition read_users
    : Collection → HTTPResult (list (gmap string Value)) * Collection :=
  run_route get_users (Response 200).

Definition read_user (user_id : string)
    : Collection → HTTPResult (gmap string Value) * Collection :=
  run_route (get_user user_id)
    (λ user, match user with
             | None => HTTPException 404 "User not found"
             | Some u => Response 200 u
             end).

Definition delete (user_id : string)
    : Collection → HTTPResult (gmap string Value) * Collection :=
  run_route (delete_user user_id)
    (λ success : bool,
       if success then Response 200 {["message" := VStr "User deleted"]}
       else HTTPException 404 "User not found").

End Crud.
End Users.

(** ** Vocabulary of the statements *)

(** A document carries the identifier [o]; no document of the collection does. *)
Definition has_id (o : ObjectId.t) (d : gmap string Value) : Prop :=
  d !! "_id" = Some (VOid o).

Definition absent (o : ObjectId.t) (coll : Collection) : Prop :=
  Forall (λ d, ¬ has_id o d) coll.

(** The document [create_todo] writes, and the record it reads back. *)
Definition new_document (fresh : ObjectId.t) (now : Z) (data : TodoCreate.t)
    : gmap string Value :=
  <["_id" := VOid fresh]>
  (<["created_at" := VDate now]>
  (<["updated_at" := VDate now]> (TodoCreate.dict data))).

Definition new_record (fresh : ObjectId.t) (now : Z) (data : TodoCreate.t)
    : TodoInDB.t :=
  {| TodoInDB.id := fresh;
     TodoInDB.title := TodoCreate.title data;
     TodoInDB.description := TodoCreate.description data;
     TodoInDB.status := TodoCreate.status data;
     TodoInDB.priority := TodoCreate.priority data;
     TodoInDB.due_date := TodoCreate.due_date data;
     TodoInDB.created_at := now;
     TodoInDB.updated_at := now |}.

Definition sample_create : TodoCreate.t :=
  {| TodoCreate.title := "write report";
     TodoCreate.description := Some "quarterly numbers";
     TodoCreate.status := PENDING;
     TodoCreate.priority := MEDIUM;
     TodoCreate.due_date := Some 500 |}.


(** The argument of [$set] built by [update_todo], and the record the
    specification expects after the update: the supplied fields replaced,
    [updated_at] refreshed, everything else as before. *)
Definition update_fields (now : Z) (data : TodoUpdate.t) : gmap string Value :=
  <["updated_at" := VDate now]>
    (filter (λ kv, kv.2 ≠ VNull) (TodoUpdate.dict data)).

Definition given {A} (o : option A) : bool :=
  match o with
  | Some _ => true
  | None => false
  end.

(** The input supplies at least one field. *)
Definition populated (data : TodoUpdate.t) : bool :=
  given (TodoUpdate.title data) ||
  given (TodoUpdate.description data) ||
  given (TodoUpdate.status data) ||
  given (TodoUpdate.priority data) ||
  given (TodoUpdate.due_date data).

Definition supplied {A} (new : option A) (old : A) : A :=
  match new with
  | Some x => x
  | None => old
  end.

Definition supplied_opt {A} (new : option A) (old : option A) : option A :=
  match new with
  | Some x => Some x
  | None => old
  end.

Definition apply_update (now : Z) (data : TodoUpdate.t) (old : TodoInDB.t)
    : TodoInDB.t :=
  {| TodoInDB.id := TodoInDB.id old;
     TodoInDB.title := supplied (TodoUpdate.title data) (TodoInDB.title old);
     TodoInDB.description :=
       supplied_opt (TodoUpdate.description data) (TodoInDB.description old);
     TodoInDB.status := supplied (TodoUpdate.status data) (TodoInDB.status old);
     TodoInDB.priority :=
       supplied (TodoUpdate.priority data) (TodoInDB.priority old);
     TodoInDB.due_date :=
       supplied_opt (TodoUpdate.due_date data) (TodoInDB.due_date old);
     TodoInDB.created_at := TodoInDB.created_at old;
     TodoInDB.updated_at := now |}.

Definition sample_store : Collection :=
  [new_document 7%N 100 sample_create].

Definition only_status (s : TodoStatus) : TodoUpdate.t :=
  {| TodoUpdate.title := None;
     TodoUpdate.description := None;
     TodoUpdate.status := Some s;
     TodoUpdate.priority := None;
     TodoUpdate.due_date := None |}.

Definition nothing_supplied : TodoUpdate.t :=
  {| TodoUpdate.title := None;
     TodoUpdate.description := None;
     TodoUpdate.status := None;
     TodoUpdate.priority := None;
     TodoUpdate.due_date := None |}.

(** The store keeps [_id] unique. *)
Definition unique_ids (coll : Collection) : Prop :=
  NoDup (map (λ d : gmap string Value, d !! "_id") coll).

(** A stored document is well formed when it carries an ObjectId and reads
    back as a record with that identifier; a store is in order when all its
    documents are well formed and identifiers are unique. *)
Definition well_formed (d : gmap string Value) : Prop :=
  ∃ t, TodoInDB.of_dict d = Ok t ∧ has_id (TodoInDB.id t) d.

Definition store_ok (coll : Collection) : Prop :=
  Forall well_formed coll ∧ unique_ids coll.

(** The record is overdue at [now]: it has a due date strictly before [now]
    and is not completed. *)
Definition is_overdue (now : Z) (t : TodoInDB.t) : bool :=
  match TodoInDB.due_date t with
  | Some due => (due <? now) && negb (bool_decide (TodoInDB.status t = COMPLETED))
  | None => false
  end.

(** The record of a stored document. *)
Definition record_of (coll : Collection) (t : TodoInDB.t) : Prop :=
  ∃ d, d ∈ coll ∧ TodoInDB.of_dict d = Ok t.

(** The filter of a listing, read on a stored document: a status or priority
    that is given must be the document's. *)
Definition matches_filter (status : option TodoStatus)
    (priority : option TodoPriority) (d : gmap string Value) : bool :=
  match status with
  | Some s => bool_decide (d !! "status" = Some (VStr (TodoStatus_value s)))
  | None => true
  end &&
  match priority with
  | Some p => bool_decide (d !! "priority" = Some (VStr (TodoPriority_value p)))
  | None => true
  end.

(** The items of one page of a listing (none when the call fails). *)
Definition page_items (size : Z) (status : option TodoStatus)
    (priority : option TodoPriority) (sort_by sort_order : string)
    (coll : Collection) (page : nat) : list TodoResponse.t :=
  match (TodoService.get_todos (Z.of_nat page) size status priority
           sort_by sort_order coll).1 with
  | Ok r => TodoListResponse.todos r
  | Raise _ => []
  end.

(** ** Histories of the store *)

(** The operations that write, with the inputs the service layer passes
    on.  For a creation, [fresh] is the identifier the driver generates. *)
Inductive Op :=
  | Create (fresh : ObjectId.t) (data : TodoCreate.t)
  | Update (todo_id : string) (data : TodoUpdate.t)
  | Delete (todo_id : string).

(** Inputs have passed validation when they reach the repository. *)
Definition op_valid (op : Op) : bool :=
  match op with
  | Create _ data => TodoCreate.valid data
  | Update _ data => TodoUpdate.valid data
  | Delete _ => true
  end.

(** The collection after the operation, run with the clock reading [now]. *)
Definition step (now : Z) (op : Op) (coll : Collection) : Collection :=
  match op with
  | Create fresh data => (TodoRepository.create_todo fresh now data coll).2
  | Update todo_id data => (TodoRepository.update_todo now todo_id data coll).2
  | Delete todo_id => (TodoRepository.delete_todo todo_id coll).2
  end.

(** [reachable t coll]: the collection results from the empty one by a
    sequence of operations whose clock readings never decrease, the last
    reading being at most [t]. *)
Inductive reachable : Z → Collection → Prop :=
  | reachable_empty (t : Z) : reachable t []
  | reachable_step (t now : Z) (op : Op) (coll : Collection) :
      reachable t coll → t ≤ now → op_valid op = true →
      reachable now (step now op coll).

(** A stored document reads back as a record with ordered timestamps, none
    later than [t]. *)
Definition timestamps_ok (t : Z) (d : gmap string Value) : Prop :=
  ∃ r, TodoInDB.of_dict d = Ok r ∧ has_id (TodoInDB.id r) d ∧
       TodoInDB.created_at r ≤ TodoInDB.updated_at r ≤ t.

(** The scenario of three creations: the collection after creating, from the
    empty store, todos with the given identifiers, instants and inputs. *)
Definition with_priority (title : string) (p : TodoPriority) : TodoCreate.t :=
  {| TodoCreate.title := title;
     TodoCreate.description := None;
     TodoCreate.status := PENDING;
     TodoCreate.priority := p;
     TodoCreate.due_date := None |}.

Definition after_three (o1 o2 o3 : ObjectId.t) (t1 t2 t3 : Z)
    (d1 d2 d3 : TodoCreate.t) : Collection :=
  let c1 := (TodoService.create_todo o1 t1 d1 []).2 in
  let c2 := (TodoService.create_todo o2 t2 d2 c1).2 in
  (TodoService.create_todo o3 t3 d3 c2).2.

Definition scenario_store : Collection :=
  after_three 1%N 2%N 3%N 10 11 12
    (with_priority "first" LOW) (with_priority "second" MEDIUM)
    (with_priority "third" HIGH).

(** An update that supplies the title only. *)
Definition only_title (s : string) : TodoUpdate.t :=
  {| TodoUpdate.title := Some s;
     TodoUpdate.description := None;
     TodoUpdate.status := None;
     TodoUpdate.priority := None;
     TodoUpdate.due_date := None |}.

(** The identifier an operation is about, when its text denotes one. *)
Definition op_target (op : Op) : option ObjectId.t :=
  match op with
  | Create fresh _ => Some fresh
  | Update todo_id _ | Delete todo_id =>
      match ObjectId.new todo_id with
      | Ok o => Some o
      | Raise _ => None
      end
  end.

(** The document spells out its status and its priority. *)
Definition explicit (d : gmap string Value) : Prop :=
  is_Some (d !! "status") ∧ is_Some (d !! "priority").




(** A connected process, and a rendering of exceptions, for examples. *)
Definition sample_db : Database.t :=
  (Database.connect_to_mongo "todo_app" (Ok tt) Database.initial).2.

Definition sample_str_exn (e : exn) : string := "error".

(** A user document has the three keys [user_helper] subscripts. *)
Definition has_user_keys (d : gmap string Value) : Prop :=
  is_Some (d !! "_id") ∧ is_Some (d !! "name") ∧ is_Some (d !! "email").

Definition sample_user : Users.User :=
  {| Users.name := "Ada"; Users.email := "ada@example.org" |}.

Definition sample_str_datetime (t : Z) : string := "datetime".

Definition sample_user_document : gmap string Value :=
  <["_id" := VOid 9%N]> (Users.User_dict sample_user).
(** * Properties *)

(** ** Identifiers: printing and parsing *)

Section ObjectId_facts.

Lemma hex_digit_value_hex_digit (d : N) :
  (d < 16)%N → ObjectId.hex_digit_value (ObjectId.hex_digit d) = Some d.
Proof.
  intros Hd.
  destruct d as [|p]; [reflexivity|].
  do 4 (destruct p as [p|p|]; try reflexivity; try lia).
Qed.

Lemma hexlify_length (k : nat) : ∀ n acc,
  String.length (ObjectId.hexlify k n acc) = (k + String.length acc)%nat.
Proof.
  induction k as [|k IH]; intros n acc; simpl; [reflexivity|].
  rewrite IH. simpl. lia.
Qed.

Lemma fromhex_hexlify (k : nat) : ∀ n acc a,
  (n < 16 ^ N.of_nat k)%N →
  ObjectId.fromhex (ObjectId.hexlify k n acc) a
  = ObjectId.fromhex acc (a * 16 ^ N.of_nat k + n)%N.
Proof.
  induction k as [|k IH]; intros n acc a Hn.
  - simpl in *. f_equal. lia.
  - rewrite Nat2N.inj_succ, N.pow_succ_r' in Hn.
    cbn [ObjectId.hexlify].
    rewrite IH by (apply N.Div0.div_lt_upper_bound; lia).
    cbn [ObjectId.fromhex].
    rewrite hex_digit_value_hex_digit by (apply N.mod_lt; lia).
    f_equal. rewrite Nat2N.inj_succ, N.pow_succ_r'.
    pose proof (N.div_mod n 16). lia.
Qed.

Lemma ObjectId_new_str (o : ObjectId.t) :
  ObjectId.wf o → ObjectId.new (ObjectId.str o) = Ok o.
Proof.
  intros Ho. unfold ObjectId.new, ObjectId.str.
  rewrite hexlify_length. simpl Nat.eqb. cbv iota.
  rewrite fromhex_hexlify by exact Ho. simpl. f_equal.
Qed.

Lemma ObjectId_is_valid_str (o : ObjectId.t) :
  ObjectId.wf o → ObjectId.is_valid (ObjectId.str o) = true.
Proof.
  intros Ho. unfold ObjectId.is_valid. by rewrite ObjectId_new_str.
Qed.

Lemma ObjectId_is_valid_new (s : string) :
  ObjectId.is_valid s = true → ∃ o, ObjectId.new s = Ok o.
Proof.
  unfold ObjectId.is_valid. destruct (ObjectId.new s); [eauto | discriminate].
Qed.

End ObjectId_facts.

(** ** The store: queries by identifier *)

Section Store_facts.

Lemma field_eq_oid (o : ObjectId.t) (f : option Value) :
  Store.field_eq (VOid o) f = true ↔ f = Some (VOid o).
Proof.
  unfold Store.field_eq.
  destruct f as [x|]; rewrite bool_decide_eq_true; split; congruence.
Qed.

Lemma matches_singleton (k : string) (c : Cond) (d : gmap string Value) :
  Store.matches {[k := c]} d = Store.field_matches c (d !! k).
Proof.
  unfold Store.matches.
  destruct (Store.field_matches c (d !! k)) eqn:E.
  - apply bool_decide_eq_true. by apply map_Forall_singleton.
  - apply bool_decide_eq_false. rewrite map_Forall_singleton. congruence.
Qed.

Lemma matches_id (o : ObjectId.t) (d : gmap string Value) :
  Store.matches {["_id" := CEq (VOid o)]} d = true ↔ has_id o d.
Proof. rewrite matches_singleton. simpl. apply field_eq_oid. Qed.

Lemma matches_id_false (o : ObjectId.t) (d : gmap string Value) :
  Store.matches {["_id" := CEq (VOid o)]} d = false ↔ ¬ has_id o d.
Proof.
  rewrite <- matches_id. destruct (Store.matches _ d); split; congruence.
Qed.

Variable q : gmap string Cond.

Lemma find_one_None (coll : Collection) :
  Store.find_one q coll = None ↔ Forall (λ d, Store.matches q d = false) coll.
Proof.
  unfold Store.find_one. induction coll as [|d coll IH]; simpl.
  - split; [constructor | done].
  - destruct (Store.matches q d) eqn:E.
    + split; [done | inversion 1; congruence].
    + rewrite IH. split; [by constructor | by inversion 1].
Qed.

Lemma find_one_Some (coll : Collection) (d : gmap string Value) :
  Store.find_one q coll = Some d ↔
  ∃ l1 l2, coll = l1 ++ d :: l2 ∧ Store.matches q d = true ∧
           Forall (λ x, Store.matches q x = false) l1.
Proof.
  unfold Store.find_one. induction coll as [|x coll IH]; simpl.
  - split; [done | intros ([|??] & ? & ? & _); done].
  - destruct (Store.matches q x) eqn:E.
    + split.
      * intros [= ->]. exists [], coll. by repeat split.
      * intros ([|y l1] & l2 & Heq & Hm & Hl1); simplify_eq/=; [done|].
        inversion Hl1; congruence.
    + rewrite IH. split.
      * intros (l1 & l2 & -> & Hm & Hl1). exists (x :: l1), l2.
        repeat split; [done | by constructor].
      * intros ([|y l1] & l2 & Heq & Hm & Hl1); simplify_eq/=; [congruence|].
        exists l1, l2. repeat split; [done | by inversion Hl1].
Qed.

Lemma update_one_miss (fields : gmap string Value) (coll : Collection) :
  Forall (λ d, Store.matches q d = false) coll →
  Store.update_one q fields coll
  = ({| Store.matched_count := 0; Store.modified_count := 0 |}, coll).
Proof.
  induction 1 as [|d coll Hd _ IH]; simpl; [done|]. by rewrite Hd, IH.
Qed.

Lemma update_one_hit (fields : gmap string Value) (l1 l2 : Collection)
    (d : gmap string Value) :
  Forall (λ x, Store.matches q x = false) l1 →
  Store.matches q d = true →
  Store.update_one q fields (l1 ++ d :: l2)
  = ({| Store.matched_count := 1;
        Store.modified_count := if decide (fields ∪ d = d) then 0 else 1 |},
     l1 ++ (fields ∪ d) :: l2).
Proof.
  intros Hl1 Hd. induction Hl1 as [|x l1 Hx _ IH]; simpl.
  - by rewrite Hd.
  - by rewrite Hx, IH.
Qed.

Lemma delete_one_miss (coll : Collection) :
  Forall (λ d, Store.matches q d = false) coll →
  Store.delete_one q coll = (0, coll).
Proof.
  induction 1 as [|d coll Hd _ IH]; simpl; [done|]. by rewrite Hd, IH.
Qed.

Lemma delete_one_hit (l1 l2 : Collection) (d : gmap string Value) :
  Forall (λ x, Store.matches q x = false) l1 →
  Store.matches q d = true →
  Store.delete_one q (l1 ++ d :: l2) = (1, l1 ++ l2).
Proof.
  intros Hl1 Hd. induction Hl1 as [|x l1 Hx _ IH]; simpl.
  - by rewrite Hd.
  - by rewrite Hx, IH.
Qed.

Lemma find_one_hit (l1 l2 : Collection) (d : gmap string Value) :
  Forall (λ x, Store.matches q x = false) l1 →
  Store.matches q d = true →
  Store.find_one q (l1 ++ d :: l2) = Some d.
Proof. intros. apply find_one_Some. by exists l1, l2. Qed.

End Store_facts.

(** ** Documents written by the repository and their reading back *)

Section Reading.

Lemma TodoStatus_of_value_value (s : TodoStatus) :
  TodoStatus_of_value (TodoStatus_value s) = Some s.
Proof. by destruct s. Qed.

Lemma TodoPriority_of_value_value (p : TodoPriority) :
  TodoPriority_of_value (TodoPriority_value p) = Some p.
Proof. by destruct p. Qed.

Lemma TodoStatus_of_value_inv (s : string) (x : TodoStatus) :
  TodoStatus_of_value s = Some x → s = TodoStatus_value x.
Proof.
  unfold TodoStatus_of_value.
  repeat match goal with
         | |- context [String.eqb s ?c] =>
             destruct (String.eqb_spec s c) as [->|_]; [by intros [= <-]|]
         end.
  done.
Qed.

Lemma TodoPriority_of_value_inv (s : string) (x : TodoPriority) :
  TodoPriority_of_value s = Some x → s = TodoPriority_value x.
Proof.
  unfold TodoPriority_of_value.
  repeat match goal with
         | |- context [String.eqb s ?c] =>
             destruct (String.eqb_spec s c) as [->|_]; [by intros [= <-]|]
         end.
  done.
Qed.

Lemma of_dict_new_document (fresh : ObjectId.t) (now : Z) (data : TodoCreate.t) :
  TodoCreate.valid data = true →
  TodoInDB.of_dict (new_document fresh now data) = Ok (new_record fresh now data).
Proof.
  intros [Ht Hd]%andb_prop.
  unfold TodoInDB.of_dict, new_document, TodoCreate.dict.
  simplify_map_eq. simpl. rewrite Ht.
  rewrite TodoStatus_of_value_value, TodoPriority_of_value_value.
  destruct data as [t [d|] s p [dd|]]; simpl in *; rewrite ?Hd; reflexivity.
Qed.

Lemma existsb_field_eq_absent (o : ObjectId.t) (coll : Collection) :
  absent o coll →
  existsb (λ d, Store.field_eq (VOid o) (d !! "_id")) coll = false.
Proof.
  induction 1 as [|d coll Hd _ IH]; simpl; [done|]. rewrite IH.
  destruct (Store.field_eq _ _) eqn:E; [|done].
  by apply field_eq_oid in E.
Qed.

Lemma absent_no_match (o : ObjectId.t) (coll : Collection) :
  absent o coll ↔
  Forall (λ d, Store.matches {["_id" := CEq (VOid o)]} d = false) coll.
Proof.
  unfold absent. apply Forall_iff. intros d. by rewrite matches_id_false.
Qed.

Lemma insert_one_fresh (fresh : ObjectId.t) (now : Z) (data : TodoCreate.t)
    (coll : Collection) :
  absent fresh coll →
  Store.insert_one fresh
    (<["created_at" := VDate now]>
       (<["updated_at" := VDate now]> (TodoCreate.dict data))) coll
  = (Ok (VOid fresh), coll ++ [new_document fresh now data]).
Proof.
  intros Habs. unfold Store.insert_one, TodoCreate.dict.
  simplify_map_eq. simpl.
  by rewrite existsb_field_eq_absent.
Qed.

Lemma create_todo_ok (fresh : ObjectId.t) (now : Z) (data : TodoCreate.t)
    (coll : Collection) :
  TodoCreate.valid data = true →
  absent fresh coll →
  TodoRepository.create_todo fresh now data coll
  = (Ok (new_record fresh now data), coll ++ [new_document fresh now data]).
Proof.
  intros Hv Habs. unfold TodoRepository.create_todo, bind.
  rewrite insert_one_fresh by done. unfold read.
  rewrite find_one_hit.
  - unfold lift. by rewrite of_dict_new_document.
  - by apply absent_no_match.
  - apply matches_id. unfold has_id, new_document. by simplify_map_eq.
Qed.

(** What [create_todo] does when the store already holds the identifier. *)
Lemma create_todo_duplicate (fresh : ObjectId.t) (now : Z)
    (data : TodoCreate.t) (coll : Collection) :
  ¬ absent fresh coll →
  TodoRepository.create_todo fresh now data coll = (Raise DuplicateKeyError, coll).
Proof.
  intros Hn. unfold TodoRepository.create_todo, bind, Store.insert_one,
    TodoCreate.dict.
  simplify_map_eq. simpl.
  destruct (existsb _ coll) eqn:E; [done|]. exfalso. apply Hn.
  apply Forall_forall. intros d Hd Hid.
  assert (existsb (λ d, Store.field_eq (VOid fresh) (d !! "_id")) coll = true)
    as E'; [|congruence].
  apply existsb_exists. exists d. split; [by apply list_elem_of_In | by apply field_eq_oid].
Qed.

Lemma get_todo_by_id_eq (todo_id : string) (o : ObjectId.t) (coll : Collection) :
  ObjectId.new todo_id = Ok o →
  TodoRepository.get_todo_by_id todo_id coll
  = (match Store.find_one {["_id" := CEq (VOid o)]} coll with
     | Some doc =>
         match TodoInDB.of_dict doc with
         | Ok t => Ok (Some t)
         | Raise e => Raise e
         end
     | None => Ok None
     end, coll).
Proof.
  intros Hnew. unfold TodoRepository.get_todo_by_id, ObjectId.is_valid.
  rewrite Hnew. simpl. unfold bind, lift, read, ret.
  destruct (Store.find_one _ coll); [|done].
  by destruct (TodoInDB.of_dict _).
Qed.

Lemma get_todo_by_id_invalid (todo_id : string) (coll : Collection) :
  ObjectId.is_valid todo_id = false →
  TodoRepository.get_todo_by_id todo_id coll = (Ok None, coll).
Proof.
  intros H. unfold TodoRepository.get_todo_by_id. by rewrite H.
Qed.

Lemma get_todo_by_id_state (todo_id : string) (coll : Collection) :
  snd (TodoRepository.get_todo_by_id todo_id coll) = coll.
Proof.
  destruct (ObjectId.is_valid todo_id) eqn:E.
  - destruct (ObjectId_is_valid_new _ E) as [o Ho].
    by rewrite (get_todo_by_id_eq _ _ _ Ho).
  - by rewrite get_todo_by_id_invalid.
Qed.

End Reading.

(** ** Creation followed by a fetch *)

(** C1.  For a valid creation input, and an identifier generated by the
    driver (twelve bytes, not yet in the collection), [create_todo] succeeds
    and returns the record built from the input with both timestamps equal
    to the instant of the call; fetching by the returned identifier, at the
    repository and through the service (where the identifier is its
    24-character text), yields exactly the record that creation returned. *)
Theorem create_then_fetch (fresh : ObjectId.t) (now : Z) (data : TodoCreate.t)
    (coll : Collection) :
  TodoCreate.valid data = true →
  ObjectId.wf fresh →
  absent fresh coll →
  ∃ (created : TodoInDB.t) (coll' : Collection),
    TodoRepository.create_todo fresh now data coll = (Ok created, coll') ∧
    TodoRepository.get_todo_by_id (ObjectId.str (TodoInDB.id created)) coll'
      = (Ok (Some created), coll') ∧
    TodoService.create_todo fresh now data coll
      = (Ok (TodoService._convert_to_response created), coll') ∧
    TodoService.get_todo
        (TodoResponse.id (TodoService._convert_to_response created)) coll'
      = (Ok (Some (TodoService._convert_to_response created)), coll') ∧
    TodoInDB.created_at created = TodoInDB.updated_at created ∧
    TodoInDB.created_at created = now ∧
    TodoInDB.title created = TodoCreate.title data ∧
    TodoInDB.description created = TodoCreate.description data ∧
    TodoInDB.status created = TodoCreate.status data ∧
    TodoInDB.priority created = TodoCreate.priority data ∧
    TodoInDB.due_date created = TodoCreate.due_date data.
Proof.
  intros Hv Hwf Habs.
  exists (new_record fresh now data), (coll ++ [new_document fresh now data]).
  assert (TodoRepository.get_todo_by_id (ObjectId.str fresh)
            (coll ++ [new_document fresh now data])
          = (Ok (Some (new_record fresh now data)),
             coll ++ [new_document fresh now data])) as Hget.
  { rewrite (get_todo_by_id_eq _ fresh) by by apply ObjectId_new_str.
    rewrite find_one_hit.
    - by rewrite of_dict_new_document.
    - by apply absent_no_match.
    - apply matches_id. unfold has_id, new_document. by simplify_map_eq. }
  split; [by apply create_todo_ok|].
  split; [exact Hget|].
  split.
  { unfold TodoService.create_todo, bind. by rewrite create_todo_ok. }
  split.
  { unfold TodoService.get_todo, bind. simpl TodoResponse.id.
    simpl TodoInDB.id in Hget. by rewrite Hget. }
  by repeat split.
Qed.

Lemma create_then_fetch_witness :
  ∃ (created : TodoInDB.t) (coll' : Collection),
    TodoRepository.create_todo 7%N 100 sample_create [] = (Ok created, coll') ∧
    TodoRepository.get_todo_by_id (ObjectId.str (TodoInDB.id created)) coll'
      = (Ok (Some created), coll') ∧
    TodoService.create_todo 7%N 100 sample_create []
      = (Ok (TodoService._convert_to_response created), coll') ∧
    TodoService.get_todo
        (TodoResponse.id (TodoService._convert_to_response created)) coll'
      = (Ok (Some (TodoService._convert_to_response created)), coll') ∧
    TodoInDB.created_at created = TodoInDB.updated_at created ∧
    TodoInDB.created_at created = 100 ∧
    TodoInDB.title created = TodoCreate.title sample_create ∧
    TodoInDB.description created = TodoCreate.description sample_create ∧
    TodoInDB.status created = TodoCreate.status sample_create ∧
    TodoInDB.priority created = TodoCreate.priority sample_create ∧
    TodoInDB.due_date created = TodoCreate.due_date sample_create.
Proof.
  apply (create_then_fetch 7%N 100 sample_create []).
  - reflexivity.
  - reflexivity.
  - constructor.
Defined.

(** ** Partial updates *)

Section Updating.

Lemma filter_not_null_lookup (m : gmap string Value) (k : string) :
  filter (λ kv : string * Value, kv.2 ≠ VNull) m !! k
  = match m !! k with
    | Some v => if decide (v = VNull) then None else Some v
    | None => None
    end.
Proof.
  rewrite map_lookup_filter. destruct (m !! k) as [v|]; simpl; [|done].
  destruct (decide (v = VNull)) as [->|Hv].
  - by rewrite option_guard_False by (simpl; congruence).
  - by rewrite option_guard_True.
Qed.

Lemma update_fields_lookup (now : Z) (data : TodoUpdate.t) (k : string) :
  update_fields now data !! k
  = if decide (k = "updated_at") then Some (VDate now)
    else match TodoUpdate.dict data !! k with
         | Some v => if decide (v = VNull) then None else Some v
         | None => None
         end.
Proof.
  unfold update_fields. destruct (decide (k = "updated_at")) as [->|Hk].
  - by rewrite lookup_insert_eq.
  - rewrite lookup_insert_ne by done. apply filter_not_null_lookup.
Qed.

Lemma opt_value_null {A} (f : A → Value) (o : option A) :
  (∀ a, f a ≠ VNull) →
  (if decide (opt_value f o = VNull) then None else Some (opt_value f o))
  = f <$> o.
Proof.
  intros Hf. destruct o as [a|]; simpl.
  - destruct (decide (f a = VNull)); [by destruct (Hf a) | done].
  - by destruct (decide (VNull = VNull)).
Qed.

Ltac look_through_set :=
  rewrite lookup_union, update_fields_lookup; unfold TodoUpdate.dict;
  simplify_map_eq; rewrite ?opt_value_null by done.

Variables (now : Z) (data : TodoUpdate.t) (d : gmap string Value).

Lemma updated_id : (update_fields now data ∪ d) !! "_id" = d !! "_id".
Proof. look_through_set. by destruct (d !! "_id"). Qed.

Lemma updated_created_at :
  (update_fields now data ∪ d) !! "created_at" = d !! "created_at".
Proof. look_through_set. by destruct (d !! "created_at"). Qed.

Lemma updated_updated_at :
  (update_fields now data ∪ d) !! "updated_at" = Some (VDate now).
Proof. look_through_set. by destruct (d !! "updated_at"). Qed.

Lemma updated_title :
  (update_fields now data ∪ d) !! "title"
  = supplied_opt (VStr <$> TodoUpdate.title data) (d !! "title").
Proof.
  look_through_set. by destruct (TodoUpdate.title data), (d !! "title").
Qed.

Lemma updated_description :
  (update_fields now data ∪ d) !! "description"
  = supplied_opt (VStr <$> TodoUpdate.description data) (d !! "description").
Proof.
  look_through_set.
  by destruct (TodoUpdate.description data), (d !! "description").
Qed.

Lemma updated_status :
  (update_fields now data ∪ d) !! "status"
  = supplied_opt ((λ s, VStr (TodoStatus_value s)) <$> TodoUpdate.status data)
      (d !! "status").
Proof.
  look_through_set. by destruct (TodoUpdate.status data), (d !! "status").
Qed.

Lemma updated_priority :
  (update_fields now data ∪ d) !! "priority"
  = supplied_opt
      ((λ p, VStr (TodoPriority_value p)) <$> TodoUpdate.priority data)
      (d !! "priority").
Proof.
  look_through_set. by destruct (TodoUpdate.priority data), (d !! "priority").
Qed.

Lemma updated_due_date :
  (update_fields now data ∪ d) !! "due_date"
  = supplied_opt (VDate <$> TodoUpdate.due_date data) (d !! "due_date").
Proof.
  look_through_set. by destruct (TodoUpdate.due_date data), (d !! "due_date").
Qed.

End Updating.

Section Update_record.

Lemma of_dict_Ok (doc : gmap string Value) (t : TodoInDB.t) :
  TodoInDB.of_dict doc = Ok t ↔
  TodoInDB.parse_id (doc !! "_id") = Ok (TodoInDB.id t) ∧
  TodoInDB.parse_title (doc !! "title") = Ok (TodoInDB.title t) ∧
  TodoInDB.parse_description (doc !! "description")
    = Ok (TodoInDB.description t) ∧
  TodoInDB.parse_status (doc !! "status") = Ok (TodoInDB.status t) ∧
  TodoInDB.parse_priority (doc !! "priority") = Ok (TodoInDB.priority t) ∧
  TodoInDB.parse_due_date (doc !! "due_date") = Ok (TodoInDB.due_date t) ∧
  TodoInDB.parse_datetime (doc !! "created_at") = Ok (TodoInDB.created_at t) ∧
  TodoInDB.parse_datetime (doc !! "updated_at") = Ok (TodoInDB.updated_at t).
Proof.
  unfold TodoInDB.of_dict. split.
  - destruct (TodoInDB.parse_id _); [|done].
    destruct (TodoInDB.parse_title _); [|done].
    destruct (TodoInDB.parse_description _); [|done].
    destruct (TodoInDB.parse_status _); [|done].
    destruct (TodoInDB.parse_priority _); [|done].
    destruct (TodoInDB.parse_due_date _); [|done].
    destruct (TodoInDB.parse_datetime (doc !! "created_at")); [|done].
    destruct (TodoInDB.parse_datetime (doc !! "updated_at")); [|done].
    by intros [= <-].
  - intros (-> & -> & -> & -> & -> & -> & -> & ->). by destruct t.
Qed.

Lemma parse_id_has_id (doc : gmap string Value) (o o' : ObjectId.t) :
  has_id o doc → TodoInDB.parse_id (doc !! "_id") = Ok o' → o' = o.
Proof. unfold has_id. intros ->. simpl. congruence. Qed.

Lemma of_dict_update (now : Z) (data : TodoUpdate.t)
    (d : gmap string Value) (old : TodoInDB.t) :
  TodoUpdate.valid data = true →
  TodoInDB.of_dict d = Ok old →
  TodoInDB.of_dict (update_fields now data ∪ d) = Ok (apply_update now data old).
Proof.
  intros [Ht Hd]%andb_prop
    (Hi & Hti & Hde & Hs & Hp & Hdd & Hc & Hu)%of_dict_Ok.
  apply of_dict_Ok.
  rewrite updated_id, updated_title, updated_description, updated_status,
    updated_priority, updated_due_date, updated_created_at, updated_updated_at.
  destruct data as [t de s p dd]; simpl in *.
  repeat split; try done.
  - destruct t; simpl; [by rewrite Ht | done].
  - destruct de; simpl; [by rewrite Hd | done].
  - destruct s; simpl; [by rewrite TodoStatus_of_value_value | done].
  - destruct p; simpl; [by rewrite TodoPriority_of_value_value | done].
  - by destruct dd.
Qed.

Lemma update_data_empty (data : TodoUpdate.t) :
  filter (λ kv : string * Value, kv.2 ≠ VNull) (TodoUpdate.dict data) = ∅ ↔
  populated data = false.
Proof.
  split.
  - intros He.
    assert (∀ k, match TodoUpdate.dict data !! k with
                 | Some v => if decide (v = VNull) then None else Some v
                 | None => None
                 end = (None : option Value)) as Hk.
    { intros k. rewrite <- filter_not_null_lookup, He. apply lookup_empty. }
    pose proof (Hk "title") as H1. pose proof (Hk "description") as H2.
    pose proof (Hk "status") as H3. pose proof (Hk "priority") as H4.
    pose proof (Hk "due_date") as H5. clear Hk He.
    destruct data as [[?|] [?|] [?|] [?|] [?|]]; try done;
      unfold TodoUpdate.dict in *; simplify_map_eq.
  - intros Hp. by destruct data as [[?|] [?|] [?|] [?|] [?|]].
Qed.

Lemma get_todo_by_id_Some (todo_id : string) (coll : Collection)
    (t : TodoInDB.t) :
  (TodoRepository.get_todo_by_id todo_id coll).1 = Ok (Some t) →
  ∃ o l1 d l2,
    ObjectId.new todo_id = Ok o ∧ coll = l1 ++ d :: l2 ∧
    Forall (λ x, Store.matches {["_id" := CEq (VOid o)]} x = false) l1 ∧
    has_id o d ∧ TodoInDB.of_dict d = Ok t.
Proof.
  destruct (ObjectId.is_valid todo_id) eqn:E.
  - destruct (ObjectId_is_valid_new _ E) as [o Ho].
    rewrite (get_todo_by_id_eq _ _ _ Ho). simpl.
    destruct (Store.find_one _ coll) as [d|] eqn:Hf; [|done].
    apply find_one_Some in Hf as (l1 & l2 & -> & Hm & Hl1).
    destruct (TodoInDB.of_dict d) eqn:Hd; [|done]. intros [= ->].
    exists o, l1, d, l2.
    split; [exact Ho|]. split; [reflexivity|]. split; [exact Hl1|].
    split; [by apply matches_id | exact Hd].
  - by rewrite get_todo_by_id_invalid.
Qed.

Lemma get_todo_by_id_hit (todo_id : string) (o : ObjectId.t)
    (l1 l2 : Collection) (d : gmap string Value) :
  ObjectId.new todo_id = Ok o →
  Forall (λ x, Store.matches {["_id" := CEq (VOid o)]} x = false) l1 →
  has_id o d →
  TodoRepository.get_todo_by_id todo_id (l1 ++ d :: l2)
  = (match TodoInDB.of_dict d with
     | Ok t => Ok (Some t)
     | Raise e => Raise e
     end, l1 ++ d :: l2).
Proof.
  intros Ho Hl1 Hd. rewrite (get_todo_by_id_eq _ _ _ Ho).
  rewrite find_one_hit; [done | done | by apply matches_id].
Qed.

(** [update_todo] on a stored document, with at least one field supplied. *)
Lemma update_todo_hit (now : Z) (todo_id : string) (data : TodoUpdate.t)
    (o : ObjectId.t) (l1 l2 : Collection) (d : gmap string Value) :
  ObjectId.new todo_id = Ok o →
  Forall (λ x, Store.matches {["_id" := CEq (VOid o)]} x = false) l1 →
  has_id o d →
  populated data = true →
  TodoRepository.update_todo now todo_id data (l1 ++ d :: l2)
  = (if decide (update_fields now data ∪ d = d) then Ok None
     else match TodoInDB.of_dict (update_fields now data ∪ d) with
          | Ok t => Ok (Some t)
          | Raise e => Raise e
          end,
     l1 ++ (update_fields now data ∪ d) :: l2).
Proof.
  intros Ho Hl1 Hd Hp. unfold TodoRepository.update_todo, ObjectId.is_valid.
  rewrite Ho. cbn [negb]. cbv beta iota.
  destruct (decide (filter _ (TodoUpdate.dict data) = ∅)) as [He|_].
  { apply update_data_empty in He. congruence. }
  unfold bind, lift, write. fold (update_fields now data).
  rewrite update_one_hit by (done || by apply matches_id). simpl.
  destruct (decide (update_fields now data ∪ d = d)); simpl; [done|].
  rewrite (get_todo_by_id_hit _ o); [done | done | done |].
  unfold has_id. by rewrite updated_id.
Qed.

Lemma update_todo_miss (now : Z) (todo_id : string) (data : TodoUpdate.t)
    (o : ObjectId.t) (coll : Collection) :
  ObjectId.new todo_id = Ok o →
  absent o coll →
  TodoRepository.update_todo now todo_id data coll = (Ok None, coll).
Proof.
  intros Ho Habs. unfold TodoRepository.update_todo, ObjectId.is_valid.
  rewrite Ho. cbn [negb]. cbv beta iota.
  apply absent_no_match in Habs.
  destruct (decide (filter _ (TodoUpdate.dict data) = ∅)) as [He|_].
  - rewrite (get_todo_by_id_eq _ _ _ Ho).
    by rewrite (proj2 (find_one_None _ _) Habs).
  - unfold bind, lift, write. by rewrite update_one_miss.
Qed.

Lemma update_todo_invalid (now : Z) (todo_id : string) (data : TodoUpdate.t)
    (coll : Collection) :
  ObjectId.is_valid todo_id = false →
  TodoRepository.update_todo now todo_id data coll = (Ok None, coll).
Proof. intros Hbad. unfold TodoRepository.update_todo. by rewrite Hbad. Qed.

Lemma update_todo_unpopulated (now : Z) (todo_id : string)
    (data : TodoUpdate.t) (coll : Collection) :
  populated data = false →
  TodoRepository.update_todo now todo_id data coll
  = TodoRepository.get_todo_by_id todo_id coll.
Proof.
  intros Hp. unfold TodoRepository.update_todo.
  destruct (ObjectId.is_valid todo_id) eqn:E; simpl.
  - destruct (decide _) as [_|Hne]; [reflexivity|].
    apply update_data_empty in Hp. contradiction.
  - by rewrite get_todo_by_id_invalid.
Qed.

End Update_record.

Lemma parse_datetime_Ok (v : option Value) (x : Z) :
  TodoInDB.parse_datetime v = Ok x ↔ v = Some (VDate x).
Proof.
  split; [|by intros ->].
  destruct v as [[]|]; simpl; congruence.
Qed.

Lemma update_changes_document (now : Z) (data : TodoUpdate.t)
    (d : gmap string Value) (old : TodoInDB.t) :
  TodoInDB.of_dict d = Ok old →
  TodoInDB.updated_at old ≠ now →
  update_fields now data ∪ d ≠ d.
Proof.
  intros (_ & _ & _ & _ & _ & _ & _ & Hu)%of_dict_Ok Hne Heq.
  apply parse_datetime_Ok in Hu.
  pose proof (updated_updated_at now data d) as H. rewrite Heq, Hu in H.
  congruence.
Qed.

(** C2.  For a todo that exists (the fetch by its identifier returns [old]),
    a valid partial update supplying at least one field, issued at an instant
    after the record's last update, succeeds; the record it returns is the
    one now stored, and it is [old] with the supplied fields replaced: every
    field the input leaves out keeps its value, [created_at] and the
    identifier are unchanged, and [updated_at] is the instant of the call,
    strictly later than before. *)
Theorem partial_update_frame (now : Z) (todo_id : string)
    (data : TodoUpdate.t) (coll : Collection) (old : TodoInDB.t) :
  (TodoRepository.get_todo_by_id todo_id coll).1 = Ok (Some old) →
  TodoUpdate.valid data = true →
  populated data = true →
  TodoInDB.updated_at old < now →
  ∃ (new : TodoInDB.t) (coll' : Collection),
    TodoRepository.update_todo now todo_id data coll = (Ok (Some new), coll') ∧
    TodoRepository.get_todo_by_id todo_id coll' = (Ok (Some new), coll') ∧
    new = apply_update now data old ∧
    (TodoUpdate.title data = None → TodoInDB.title new = TodoInDB.title old) ∧
    (TodoUpdate.description data = None →
       TodoInDB.description new = TodoInDB.description old) ∧
    (TodoUpdate.status data = None → TodoInDB.status new = TodoInDB.status old) ∧
    (TodoUpdate.priority data = None →
       TodoInDB.priority new = TodoInDB.priority old) ∧
    (TodoUpdate.due_date data = None →
       TodoInDB.due_date new = TodoInDB.due_date old) ∧
    TodoInDB.id new = TodoInDB.id old ∧
    TodoInDB.created_at new = TodoInDB.created_at old ∧
    TodoInDB.updated_at new = now ∧
    TodoInDB.updated_at old < TodoInDB.updated_at new.
Proof.
  intros (o & l1 & d & l2 & Ho & -> & Hl1 & Hd & Hold)%get_todo_by_id_Some
    Hv Hp Hlt.
  exists (apply_update now data old), (l1 ++ (update_fields now data ∪ d) :: l2).
  assert (update_fields now data ∪ d ≠ d) as Hne
    by (eapply update_changes_document; [done | lia]).
  split.
  { rewrite (update_todo_hit _ _ _ o) by done.
    destruct (decide _) as [He|_]; [contradiction|].
    rewrite (of_dict_update now data d old) by done. reflexivity. }
  split.
  { rewrite (get_todo_by_id_hit _ o); [| done | done |].
    - rewrite (of_dict_update now data d old) by done. reflexivity.
    - unfold has_id. rewrite updated_id. exact Hd. }
  split; [reflexivity|].
  simpl. repeat split; try done; by intros ->.
Qed.

Lemma partial_update_frame_witness :
  ∃ (new : TodoInDB.t) (coll' : Collection),
    TodoRepository.update_todo 200 (ObjectId.str 7%N) (only_status COMPLETED)
      sample_store = (Ok (Some new), coll') ∧
    TodoRepository.get_todo_by_id (ObjectId.str 7%N) coll'
      = (Ok (Some new), coll') ∧
    new = apply_update 200 (only_status COMPLETED)
            (new_record 7%N 100 sample_create) ∧
    (TodoUpdate.title (only_status COMPLETED) = None →
       TodoInDB.title new = TodoInDB.title (new_record 7%N 100 sample_create)) ∧
    (TodoUpdate.description (only_status COMPLETED) = None →
       TodoInDB.description new
       = TodoInDB.description (new_record 7%N 100 sample_create)) ∧
    (TodoUpdate.status (only_status COMPLETED) = None →
       TodoInDB.status new = TodoInDB.status (new_record 7%N 100 sample_create)) ∧
    (TodoUpdate.priority (only_status COMPLETED) = None →
       TodoInDB.priority new
       = TodoInDB.priority (new_record 7%N 100 sample_create)) ∧
    (TodoUpdate.due_date (only_status COMPLETED) = None →
       TodoInDB.due_date new
       = TodoInDB.due_date (new_record 7%N 100 sample_create)) ∧
    TodoInDB.id new = TodoInDB.id (new_record 7%N 100 sample_create) ∧
    TodoInDB.created_at new
      = TodoInDB.created_at (new_record 7%N 100 sample_create) ∧
    TodoInDB.updated_at new = 200 ∧
    TodoInDB.updated_at (new_record 7%N 100 sample_create)
      < TodoInDB.updated_at new.
Proof.
  apply (partial_update_frame 200 (ObjectId.str 7%N) (only_status COMPLETED)
           sample_store (new_record 7%N 100 sample_create)).
  - vm_compute. reflexivity.
  - reflexivity.
  - reflexivity.
  - reflexivity.
Defined.

(** ** Malformed identifiers *)

(** C4.  For an identifier string that is not a valid ObjectId (the
    constructor would raise [InvalidId] on it), fetching and updating return
    the absent result, at the repository and through the service, without
    raising and without touching the collection; in particular fetching
    ["not-a-valid-id"] returns absent. *)
Theorem malformed_id_is_absent (now : Z) (todo_id : string)
    (data : TodoUpdate.t) (coll : Collection) :
  ObjectId.is_valid todo_id = false →
  ObjectId.new todo_id = Raise InvalidId ∧
  TodoRepository.get_todo_by_id todo_id coll = (Ok None, coll) ∧
  TodoRepository.update_todo now todo_id data coll = (Ok None, coll) ∧
  TodoService.get_todo todo_id coll = (Ok None, coll) ∧
  TodoService.update_todo now todo_id data coll = (Ok None, coll) ∧
  TodoService.get_todo "not-a-valid-id" coll = (Ok None, coll).
Proof.
  intros Hbad.
  pose proof (update_todo_invalid now todo_id data coll Hbad) as Hupd.
  repeat split.
  - unfold ObjectId.is_valid, ObjectId.new in *.
    destruct (Nat.eqb _ 24); [|done]. by destruct (ObjectId.fromhex _ _).
  - by apply get_todo_by_id_invalid.
  - exact Hupd.
  - unfold TodoService.get_todo, bind. by rewrite get_todo_by_id_invalid.
  - unfold TodoService.update_todo, bind. by rewrite Hupd.
Qed.

Lemma malformed_id_is_absent_witness :
  ObjectId.new "12345" = Raise InvalidId ∧
  TodoRepository.get_todo_by_id "12345" sample_store = (Ok None, sample_store) ∧
  TodoRepository.update_todo 200 "12345" (only_status COMPLETED) sample_store
    = (Ok None, sample_store) ∧
  TodoService.get_todo "12345" sample_store = (Ok None, sample_store) ∧
  TodoService.update_todo 200 "12345" (only_status COMPLETED) sample_store
    = (Ok None, sample_store) ∧
  TodoService.get_todo "not-a-valid-id" sample_store = (Ok None, sample_store).
Proof.
  apply (malformed_id_is_absent 200 "12345" (only_status COMPLETED) sample_store).
  reflexivity.
Defined.

(** ** Updates that supply nothing *)

(** C5.  When no field of the partial input is populated, [update_todo] is
    the fetch: it returns what [get_todo_by_id] returns on the same
    collection (the stored record, or absent), and the collection, hence
    every stored [updated_at], is left as it was. *)
Theorem empty_update_is_a_fetch (now : Z) (todo_id : string)
    (data : TodoUpdate.t) (coll : Collection) :
  populated data = false →
  TodoRepository.update_todo now todo_id data coll
    = TodoRepository.get_todo_by_id todo_id coll ∧
  (TodoRepository.update_todo now todo_id data coll).2 = coll ∧
  TodoService.update_todo now todo_id data coll
    = TodoService.get_todo todo_id coll.
Proof.
  intros Hp.
  pose proof (update_todo_unpopulated now todo_id data coll Hp) as Heq.
  split; [exact Heq|]. split.
  - rewrite Heq. apply get_todo_by_id_state.
  - unfold TodoService.update_todo, TodoService.get_todo, bind.
    by rewrite Heq.
Qed.

Lemma empty_update_is_a_fetch_witness :
  TodoRepository.update_todo 200 (ObjectId.str 7%N) nothing_supplied sample_store
    = TodoRepository.get_todo_by_id (ObjectId.str 7%N) sample_store ∧
  (TodoRepository.update_todo 200 (ObjectId.str 7%N) nothing_supplied
     sample_store).2 = sample_store ∧
  TodoService.update_todo 200 (ObjectId.str 7%N) nothing_supplied sample_store
    = TodoService.get_todo (ObjectId.str 7%N) sample_store.
Proof.
  apply (empty_update_is_a_fetch 200 (ObjectId.str 7%N) nothing_supplied
           sample_store).
  reflexivity.
Defined.

(** ** Nulls in a partial update *)

(** C10.  A null in the partial input is dropped before the write (no
    field of the [$set] argument is null), so it behaves as an omitted
    field: after any valid update of an existing todo the record is still
    there, a description or due date that the input leaves null keeps its
    stored value, and a description or due date that was set is still set. *)
Theorem update_never_clears (now : Z) (todo_id : string)
    (data : TodoUpdate.t) (coll : Collection) (old : TodoInDB.t) :
  (TodoRepository.get_todo_by_id todo_id coll).1 = Ok (Some old) →
  TodoUpdate.valid data = true →
  (∀ k, update_fields now data !! k ≠ Some VNull) ∧
  ∃ new : TodoInDB.t,
    (TodoRepository.get_todo_by_id todo_id
       (TodoRepository.update_todo now todo_id data coll).2).1 = Ok (Some new) ∧
    (TodoUpdate.description data = None →
       TodoInDB.description new = TodoInDB.description old) ∧
    (TodoUpdate.due_date data = None →
       TodoInDB.due_date new = TodoInDB.due_date old) ∧
    (TodoInDB.description old ≠ None → TodoInDB.description new ≠ None) ∧
    (TodoInDB.due_date old ≠ None → TodoInDB.due_date new ≠ None).
Proof.
  intros Hold Hv. split.
  { intros k. rewrite update_fields_lookup.
    destruct (decide (k = "updated_at")); [done|].
    destruct (TodoUpdate.dict data !! k) as [v|]; [|done].
    destruct (decide (v = VNull)); congruence. }
  destruct (populated data) eqn:Hp.
  - destruct (get_todo_by_id_Some _ _ _ Hold)
      as (o & l1 & d & l2 & Ho & -> & Hl1 & Hd & Hdoc).
    exists (apply_update now data old).
    rewrite (update_todo_hit _ _ _ o) by done. simpl.
    rewrite (get_todo_by_id_hit _ o); [| done | done |].
    + rewrite (of_dict_update now data d old) by done. simpl.
      split; [done|].
      repeat split; try (by intros ->).
      * intros Hsome. by destruct (TodoUpdate.description data).
      * intros Hsome. by destruct (TodoUpdate.due_date data).
    + unfold has_id. by rewrite updated_id.
  - exists old.
    rewrite (update_todo_unpopulated _ _ _ _ Hp), get_todo_by_id_state.
    by repeat split.
Qed.

Lemma update_never_clears_witness :
  (∀ k, update_fields 200 (only_status COMPLETED) !! k ≠ Some VNull) ∧
  ∃ new : TodoInDB.t,
    (TodoRepository.get_todo_by_id (ObjectId.str 7%N)
       (TodoRepository.update_todo 200 (ObjectId.str 7%N) (only_status COMPLETED)
          sample_store).2).1 = Ok (Some new) ∧
    (TodoUpdate.description (only_status COMPLETED) = None →
       TodoInDB.description new
       = TodoInDB.description (new_record 7%N 100 sample_create)) ∧
    (TodoUpdate.due_date (only_status COMPLETED) = None →
       TodoInDB.due_date new
       = TodoInDB.due_date (new_record 7%N 100 sample_create)) ∧
    (TodoInDB.description (new_record 7%N 100 sample_create) ≠ None →
       TodoInDB.description new ≠ None) ∧
    (TodoInDB.due_date (new_record 7%N 100 sample_create) ≠ None →
       TodoInDB.due_date new ≠ None).
Proof.
  apply (update_never_clears 200 (ObjectId.str 7%N) (only_status COMPLETED)
           sample_store (new_record 7%N 100 sample_create)).
  - vm_compute. reflexivity.
  - reflexivity.
Defined.

(** ** Deletion *)

Section Deleting.

Lemma first_with_id (o : ObjectId.t) (coll : Collection) :
  ¬ absent o coll →
  ∃ l1 d l2, coll = l1 ++ d :: l2 ∧ absent o l1 ∧ has_id o d.
Proof.
  intros Hn.
  destruct (Store.find_one {["_id" := CEq (VOid o)]} coll) as [d|] eqn:Hf.
  - apply find_one_Some in Hf as (l1 & l2 & -> & Hm & Hl1).
    exists l1, d, l2. repeat split; [by apply absent_no_match | by apply matches_id].
  - apply find_one_None in Hf. by apply absent_no_match in Hf.
Qed.

Lemma unique_ids_rest (o : ObjectId.t) (l1 l2 : Collection)
    (d : gmap string Value) :
  unique_ids (l1 ++ d :: l2) → has_id o d → absent o (l1 ++ l2).
Proof.
  unfold unique_ids, absent, has_id. intros Hnd Hd.
  rewrite map_app in Hnd. simpl in Hnd.
  apply NoDup_app in Hnd as (_ & Hdis & [Hnot _]%NoDup_cons).
  apply Forall_app. split; apply Forall_forall; intros x Hx Hxo.
  - apply (Hdis (x !! "_id")).
    + apply list_elem_of_fmap. by exists x.
    + rewrite Hxo, <- Hd. apply list_elem_of_here.
  - apply Hnot. rewrite Hd, <- Hxo. apply list_elem_of_fmap. by exists x.
Qed.

Lemma unique_ids_remove (l1 l2 : Collection) (d : gmap string Value) :
  unique_ids (l1 ++ d :: l2) → unique_ids (l1 ++ l2).
Proof.
  unfold unique_ids. rewrite !map_app. simpl.
  intros (H1 & Hdis & [_ H2]%NoDup_cons)%NoDup_app.
  apply NoDup_app. repeat split; [done | | done].
  intros x Hx1 Hx2. apply (Hdis x Hx1). by apply list_elem_of_further.
Qed.

Lemma delete_todo_eq (todo_id : string) (o : ObjectId.t) (coll : Collection) :
  ObjectId.new todo_id = Ok o →
  TodoRepository.delete_todo todo_id coll
  = (Ok ((Store.delete_one {["_id" := CEq (VOid o)]} coll).1 >? 0),
     (Store.delete_one {["_id" := CEq (VOid o)]} coll).2).
Proof.
  intros Ho. unfold TodoRepository.delete_todo, ObjectId.is_valid.
  rewrite Ho. simpl. unfold bind, lift, write, ret.
  by destruct (Store.delete_one _ coll).
Qed.

Lemma delete_todo_miss (todo_id : string) (o : ObjectId.t) (coll : Collection) :
  ObjectId.new todo_id = Ok o → absent o coll →
  TodoRepository.delete_todo todo_id coll = (Ok false, coll).
Proof.
  intros Ho Habs. rewrite (delete_todo_eq _ _ _ Ho).
  by rewrite delete_one_miss by by apply absent_no_match.
Qed.

Lemma delete_todo_hit (todo_id : string) (o : ObjectId.t) (l1 l2 : Collection)
    (d : gmap string Value) :
  ObjectId.new todo_id = Ok o → absent o l1 → has_id o d →
  TodoRepository.delete_todo todo_id (l1 ++ d :: l2) = (Ok true, l1 ++ l2).
Proof.
  intros Ho Habs Hd. rewrite (delete_todo_eq _ _ _ Ho).
  by rewrite delete_one_hit by (by apply absent_no_match || by apply matches_id).
Qed.

End Deleting.

(** C6.  [delete_todo] returns false, and removes nothing, for a malformed
    identifier and for a well-formed one that no stored document carries
    (so also on every repetition of the call); for an identifier that a
    document of the collection carries it returns true and removes exactly
    that one document, after which a second deletion of the same identifier
    returns false. *)
Theorem delete_outcomes (todo_id : string) (coll : Collection) :
  unique_ids coll →
  (ObjectId.is_valid todo_id = false →
     TodoRepository.delete_todo todo_id coll = (Ok false, coll)) ∧
  (∀ o, ObjectId.new todo_id = Ok o → absent o coll →
     TodoRepository.delete_todo todo_id coll = (Ok false, coll) ∧
     TodoService.delete_todo todo_id coll = (Ok false, coll)) ∧
  (∀ o, ObjectId.new todo_id = Ok o → ¬ absent o coll →
     ∃ l1 d l2,
       coll = l1 ++ d :: l2 ∧ has_id o d ∧
       TodoRepository.delete_todo todo_id coll = (Ok true, l1 ++ l2) ∧
       TodoService.delete_todo todo_id coll = (Ok true, l1 ++ l2) ∧
       length (l1 ++ l2) = pred (length coll) ∧
       absent o (l1 ++ l2) ∧
       TodoRepository.delete_todo todo_id (l1 ++ l2) = (Ok false, l1 ++ l2)).
Proof.
  intros Huniq. split; [|split].
  - intros Hbad. unfold TodoRepository.delete_todo. by rewrite Hbad.
  - intros o Ho Habs. unfold TodoService.delete_todo.
    by rewrite (delete_todo_miss _ o).
  - intros o Ho (l1 & d & l2 & -> & Hl1 & Hd)%first_with_id.
    pose proof (unique_ids_rest _ _ _ _ Huniq Hd) as Hrest.
    exists l1, d, l2.
    split; [reflexivity|]. split; [exact Hd|].
    split; [by apply (delete_todo_hit _ o)|].
    split; [unfold TodoService.delete_todo; by apply (delete_todo_hit _ o)|].
    split; [rewrite !length_app; simpl; lia|].
    split; [exact Hrest | by apply (delete_todo_miss _ o)].
Qed.

Lemma delete_outcomes_witness :
  ∃ l1 d l2,
    sample_store = l1 ++ d :: l2 ∧ has_id 7%N d ∧
    TodoRepository.delete_todo (ObjectId.str 7%N) sample_store
      = (Ok true, l1 ++ l2) ∧
    TodoService.delete_todo (ObjectId.str 7%N) sample_store
      = (Ok true, l1 ++ l2) ∧
    length (l1 ++ l2) = pred (length sample_store) ∧
    absent 7%N (l1 ++ l2) ∧
    TodoRepository.delete_todo (ObjectId.str 7%N) (l1 ++ l2)
      = (Ok false, l1 ++ l2).
Proof.
  assert (unique_ids sample_store) as Huniq by apply NoDup_singleton.
  destruct (delete_outcomes (ObjectId.str 7%N) sample_store Huniq)
    as (_ & _ & Hhit).
  apply (Hhit 7%N).
  - reflexivity.
  - intros Habs. apply Forall_inv in Habs. apply Habs. reflexivity.
Defined.

(** ** Queries with several conditions, and reading a cursor *)

Section Cursor_facts.

Lemma matches_empty (d : gmap string Value) : Store.matches ∅ d = true.
Proof. apply bool_decide_eq_true. apply map_Forall_empty. Qed.

Lemma matches_insert (q : gmap string Cond) (k : string) (c : Cond)
    (d : gmap string Value) :
  q !! k = None →
  Store.matches (<[k := c]> q) d
  = Store.field_matches c (d !! k) && Store.matches q d.
Proof.
  intros Hk. unfold Store.matches.
  destruct (Store.field_matches c (d !! k)) eqn:Ec; simpl.
  - apply bool_decide_ext. rewrite map_Forall_insert by done.
    split; [by intros [_ ?] | by intros ?; split].
  - apply bool_decide_eq_false. rewrite map_Forall_insert by done.
    intros [? _]. congruence.
Qed.

Lemma collect_Ok (docs : Collection) (ts : list TodoInDB.t) :
  TodoRepository.collect docs = Ok ts ↔
  Forall2 (λ d t, TodoInDB.of_dict d = Ok t) docs ts.
Proof.
  revert ts. induction docs as [|d docs IH]; intros ts; simpl.
  - split; [intros [= <-]; constructor | by inversion 1].
  - destruct (TodoInDB.of_dict d) as [t|e] eqn:Hd.
    + destruct (TodoRepository.collect docs) as [ts'|e] eqn:Hc.
      * split.
        -- intros [= <-]. constructor; [done | by apply IH].
        -- inversion 1 as [|? t' ? ts'' Ht Hts]; subst.
           apply IH in Hts. congruence.
      * split; [done|]. inversion 1 as [|? t' ? ts'' Ht Hts]; subst.
        by apply IH in Hts.
    + split; [done|]. inversion 1; congruence.
Qed.

Lemma collect_total (docs : Collection) :
  Forall well_formed docs → ∃ ts, TodoRepository.collect docs = Ok ts.
Proof.
  induction 1 as [|d docs (t & Ht & _) _ [ts IH]]; simpl; [by eexists|].
  rewrite Ht, IH. by eexists.
Qed.

Lemma collect_elem_of (docs : Collection) (ts : list TodoInDB.t)
    (t : TodoInDB.t) :
  TodoRepository.collect docs = Ok ts →
  t ∈ ts ↔ ∃ d, d ∈ docs ∧ TodoInDB.of_dict d = Ok t.
Proof.
  intros Hc%collect_Ok. induction Hc as [|d t' docs ts Hd _ IH].
  - split; [by intros ?%elem_of_nil | by intros (? & ?%elem_of_nil & _)].
  - rewrite elem_of_cons, IH. split.
    + intros [->|(x & Hx & Hxt)].
      * exists d. split; [apply list_elem_of_here | done].
      * exists x. split; [by apply list_elem_of_further | done].
    + intros (x & [->|Hx]%elem_of_cons & Hxt).
      * left. congruence.
      * right. by exists x.
Qed.

Lemma collect_length (docs : Collection) (ts : list TodoInDB.t) :
  TodoRepository.collect docs = Ok ts → length ts = length docs.
Proof. intros Hc%collect_Ok. symmetry. by eapply Forall2_length. Qed.

End Cursor_facts.

(** ** Overdue todos *)

Section Overdue.

Lemma status_completed_eq (s : TodoStatus) :
  bool_decide (VStr (TodoStatus_value s) = VStr (TodoStatus_value COMPLETED))
  = bool_decide (s = COMPLETED).
Proof. by destruct s. Qed.

Lemma overdue_matches (now : Z) (d : gmap string Value) (t : TodoInDB.t) :
  TodoInDB.of_dict d = Ok t →
  Store.matches
    (<["due_date" := CLt (VDate now)]>
       (<["status" := CNe (VStr (TodoStatus_value COMPLETED))]> ∅)) d
  = is_overdue now t.
Proof.
  intros (_ & _ & _ & Hs & _ & Hdd & _ & _)%of_dict_Ok.
  rewrite matches_insert by done.
  rewrite matches_insert by done.
  rewrite matches_empty, andb_true_r.
  unfold is_overdue. cbn [Store.field_matches].
  assert (Store.field_eq (VStr (TodoStatus_value COMPLETED)) (d !! "status")
          = bool_decide (TodoInDB.status t = COMPLETED)) as ->.
  { destruct (d !! "status") as [[|s| |]|]; simpl in Hs; try done.
    - destruct (TodoStatus_of_value s) as [x|] eqn:Hx; [|done].
      apply TodoStatus_of_value_inv in Hx as ->. injection Hs as <-.
      apply status_completed_eq.
    - by injection Hs as <-. }
  destruct (d !! "due_date") as [[| | |due]|]; simpl in Hdd; try done;
    injection Hdd as <-; simpl; done.
Qed.

Lemma overdue_members (now : Z) (coll : Collection) :
  Forall well_formed coll →
  ∃ ts, TodoRepository.get_overdue_todos now coll = (Ok ts, coll) ∧
        ∀ t, t ∈ ts ↔ record_of coll t ∧ is_overdue now t = true.
Proof.
  intros Hwf. unfold TodoRepository.get_overdue_todos, bind, read, lift.
  destruct (collect_total
              (Store.find
                 (<["due_date" := CLt (VDate now)]>
                    (<["status" := CNe (VStr (TodoStatus_value COMPLETED))]> ∅))
                 coll)) as [ts Hts].
  { apply Forall_forall. intros d Hd%list_elem_of_In%filter_In.
    rewrite Forall_forall in Hwf. apply Hwf, list_elem_of_In, Hd. }
  exists ts. rewrite Hts. split; [done|]. intros t.
  rewrite (collect_elem_of _ _ _ Hts). unfold record_of, Store.find. split.
  - intros (d & [Hd Hm]%list_elem_of_In%filter_In & Ht).
    rewrite (overdue_matches _ _ _ Ht) in Hm.
    split; [|done]. exists d. by rewrite list_elem_of_In.
  - intros [(d & Hd & Ht) Hov]. exists d. split; [|done].
    apply list_elem_of_In, filter_In. split; [by apply list_elem_of_In|].
    by rewrite (overdue_matches _ _ _ Ht).
Qed.

End Overdue.

(** ** Updates keep the store in order *)

Section Store_order.

Lemma has_id_inj (o o' : ObjectId.t) (d : gmap string Value) :
  has_id o d → has_id o' d → o = o'.
Proof. unfold has_id. congruence. Qed.

Lemma well_formed_update (now : Z) (data : TodoUpdate.t)
    (d : gmap string Value) :
  TodoUpdate.valid data = true →
  well_formed d → well_formed (update_fields now data ∪ d).
Proof.
  intros Hv (t & Ht & Hid). exists (apply_update now data t). split.
  - by apply of_dict_update.
  - unfold has_id. rewrite updated_id. exact Hid.
Qed.

Lemma unique_ids_replace (l1 l2 : Collection) (d d' : gmap string Value) :
  d' !! "_id" = d !! "_id" →
  unique_ids (l1 ++ d :: l2) → unique_ids (l1 ++ d' :: l2).
Proof.
  unfold unique_ids. rewrite !map_app. simpl. by intros ->.
Qed.

(** The collection after [update_todo]: untouched, or one document (the
    first with the identifier) merged with the [$set] argument. *)
Lemma update_todo_state (now : Z) (todo_id : string) (data : TodoUpdate.t)
    (coll : Collection) :
  (TodoRepository.update_todo now todo_id data coll).2 = coll ∨
  ∃ o l1 d l2,
    ObjectId.new todo_id = Ok o ∧ populated data = true ∧
    coll = l1 ++ d :: l2 ∧ absent o l1 ∧ has_id o d ∧
    (TodoRepository.update_todo now todo_id data coll).2
    = l1 ++ (update_fields now data ∪ d) :: l2.
Proof.
  destruct (populated data) eqn:Hp.
  2: { left. rewrite update_todo_unpopulated by done.
       apply get_todo_by_id_state. }
  destruct (ObjectId.is_valid todo_id) eqn:E.
  2: { left. by rewrite update_todo_invalid. }
  destruct (ObjectId_is_valid_new _ E) as [o Ho].
  destruct (Store.find_one {["_id" := CEq (VOid o)]} coll) as [d|] eqn:Hf.
  - apply find_one_Some in Hf as (l1 & l2 & -> & Hm & Hl1).
    apply matches_id in Hm.
    right. exists o, l1, d, l2.
    rewrite (update_todo_hit _ _ _ o) by done.
    split; [exact Ho|]. split; [reflexivity|]. split; [reflexivity|].
    split; [by apply absent_no_match|]. split; [exact Hm | reflexivity].
  - apply find_one_None, absent_no_match in Hf.
    left. by rewrite (update_todo_miss _ _ _ o).
Qed.

Lemma update_todo_store_ok (now : Z) (todo_id : string)
    (data : TodoUpdate.t) (coll : Collection) :
  TodoUpdate.valid data = true →
  store_ok coll →
  store_ok (TodoRepository.update_todo now todo_id data coll).2.
Proof.
  intros Hv [Hwf Huniq].
  destruct (update_todo_state now todo_id data coll)
    as [->|(o & l1 & d & l2 & _ & _ & -> & _ & _ & ->)]; [done|].
  split.
  - apply Forall_app in Hwf as [H1 [Hd H2]%Forall_cons].
    apply Forall_app. split; [exact H1|].
    apply Forall_cons. split; [by apply well_formed_update | exact H2].
  - eapply unique_ids_replace; [|exact Huniq]. apply updated_id.
Qed.

Lemma record_of_split (l1 l2 : Collection) (x : gmap string Value)
    (t : TodoInDB.t) :
  record_of (l1 ++ x :: l2) t ↔
  record_of (l1 ++ l2) t ∨ TodoInDB.of_dict x = Ok t.
Proof.
  unfold record_of. split.
  - intros (d & Hd & Ht).
    apply elem_of_app in Hd as [Hd|[->|Hd]%elem_of_cons].
    + left. exists d. split; [apply elem_of_app; by left | done].
    + by right.
    + left. exists d. split; [apply elem_of_app; by right | done].
  - intros [(d & Hd & Ht)|Ht].
    + exists d. split; [|done].
      apply elem_of_app in Hd as [Hd|Hd]; apply elem_of_app;
        [by left | right; by apply list_elem_of_further].
    + exists x. split; [|done].
      apply elem_of_app. right. apply list_elem_of_here.
Qed.

Lemma record_of_absent (o : ObjectId.t) (coll : Collection) (t : TodoInDB.t) :
  Forall well_formed coll → absent o coll → record_of coll t →
  TodoInDB.id t ≠ o.
Proof.
  intros Hwf Habs (d & Hd & Ht) Heq.
  rewrite Forall_forall in Hwf. destruct (Hwf d Hd) as (t' & Ht' & Hid).
  unfold absent in Habs. rewrite Forall_forall in Habs.
  apply (Habs d Hd). assert (t' = t) as -> by congruence. by rewrite <- Heq.
Qed.

End Store_order.

(** C7.  On a store in order, [get_overdue_todos] succeeds and returns
    exactly the records of stored documents whose due date is strictly
    before the current instant and whose status is not completed.  Setting
    the status of an existing todo to completed keeps its due date, and
    the overdue list afterwards is the former one without that todo. *)
Theorem overdue_exactly (now : Z) (coll : Collection) :
  store_ok coll →
  ∃ ts : list TodoInDB.t,
    TodoRepository.get_overdue_todos now coll = (Ok ts, coll) ∧
    TodoService.get_overdue_todos now coll
      = (Ok (map TodoService._convert_to_response ts), coll) ∧
    (∀ t, t ∈ ts ↔ record_of coll t ∧ is_overdue now t = true) ∧
    ∀ (now1 : Z) (todo_id : string) (old : TodoInDB.t),
      (TodoRepository.get_todo_by_id todo_id coll).1 = Ok (Some old) →
      ∃ (new : TodoInDB.t) (ts' : list TodoInDB.t),
        (TodoRepository.get_todo_by_id todo_id
           (TodoRepository.update_todo now1 todo_id (only_status COMPLETED)
              coll).2).1 = Ok (Some new) ∧
        TodoInDB.status new = COMPLETED ∧
        TodoInDB.due_date new = TodoInDB.due_date old ∧
        (TodoRepository.get_overdue_todos now
           (TodoRepository.update_todo now1 todo_id (only_status COMPLETED)
              coll).2).1 = Ok ts' ∧
        ∀ t, t ∈ ts' ↔ t ∈ ts ∧ TodoInDB.id t ≠ TodoInDB.id old.
Proof.
  intros [Hwf Huniq].
  destruct (overdue_members now coll Hwf) as (ts & Hts & Hmem).
  exists ts. split; [exact Hts|]. split.
  { unfold TodoService.get_overdue_todos, bind. by rewrite Hts. }
  split; [exact Hmem|].
  intros now1 todo_id old
    (o & l1 & d & l2 & Ho & -> & Hl1 & Hd & Hold)%get_todo_by_id_Some.
  set (d' := update_fields now1 (only_status COMPLETED) ∪ d).
  assert (TodoInDB.of_dict d' = Ok (apply_update now1 (only_status COMPLETED) old))
    as Hnew by by apply of_dict_update.
  assert (has_id o d') as Hd' by (unfold has_id, d'; by rewrite updated_id).
  rewrite (update_todo_hit _ _ _ o) by done. cbn [snd]. fold d'.
  assert (Forall well_formed (l1 ++ d' :: l2)) as Hwf'.
  { apply Forall_app in Hwf as [H1 [Hwd H2]%Forall_cons].
    apply Forall_app. split; [exact H1|]. apply Forall_cons.
    split; [by apply well_formed_update | exact H2]. }
  clearbody d'.
  destruct (overdue_members now _ Hwf') as (ts' & Hts' & Hmem').
  exists (apply_update now1 (only_status COMPLETED) old), ts'.
  split.
  { rewrite (get_todo_by_id_hit _ o) by done. by rewrite Hnew. }
  split; [reflexivity|]. split; [reflexivity|].
  split; [by rewrite Hts'|].
  assert (TodoInDB.id old = o) as Hido.
  { apply Forall_app in Hwf as [_ [(t0 & Ht0 & Hid0) _]%Forall_cons].
    assert (t0 = old) as -> by congruence. by apply (has_id_inj _ _ d). }
  pose proof (unique_ids_rest _ _ _ _ Huniq Hd) as Hrest.
  assert (Forall well_formed (l1 ++ l2)) as Hwfr.
  { apply Forall_app in Hwf as [H1 [_ H2]%Forall_cons].
    apply Forall_app. exact (conj H1 H2). }
  intros t. rewrite Hmem', Hmem, !record_of_split, Hido. split.
  - intros [[Hrec|Ht] Hov].
    + split; [by split; [left|] | by eapply record_of_absent].
    + assert (t = apply_update now1 (only_status COMPLETED) old) as ->
        by congruence.
      unfold is_overdue in Hov. simpl in Hov.
      destruct (TodoInDB.due_date old); [|done].
      by rewrite andb_false_r in Hov.
  - intros [[[Hrec|Ht] Hov] Hne].
    + by split; [left|].
    + assert (t = old) as -> by congruence. by destruct Hne.
Qed.

Lemma overdue_exactly_witness :
  ∃ ts : list TodoInDB.t,
    TodoRepository.get_overdue_todos 900 sample_store = (Ok ts, sample_store) ∧
    TodoService.get_overdue_todos 900 sample_store
      = (Ok (map TodoService._convert_to_response ts), sample_store) ∧
    (∀ t, t ∈ ts ↔ record_of sample_store t ∧ is_overdue 900 t = true) ∧
    ∀ (now1 : Z) (todo_id : string) (old : TodoInDB.t),
      (TodoRepository.get_todo_by_id todo_id sample_store).1 = Ok (Some old) →
      ∃ (new : TodoInDB.t) (ts' : list TodoInDB.t),
        (TodoRepository.get_todo_by_id todo_id
           (TodoRepository.update_todo now1 todo_id (only_status COMPLETED)
              sample_store).2).1 = Ok (Some new) ∧
        TodoInDB.status new = COMPLETED ∧
        TodoInDB.due_date new = TodoInDB.due_date old ∧
        (TodoRepository.get_overdue_todos 900
           (TodoRepository.update_todo now1 todo_id (only_status COMPLETED)
              sample_store).2).1 = Ok ts' ∧
        ∀ t, t ∈ ts' ↔ t ∈ ts ∧ TodoInDB.id t ≠ TodoInDB.id old.
Proof.
  apply (overdue_exactly 900 sample_store).
  split.
  - apply Forall_cons. split; [|constructor].
    exists (new_record 7%N 100 sample_create). split; reflexivity.
  - apply NoDup_singleton.
Defined.

(** ** Listings: filter, sort, skip, limit *)

Section Listing.

Lemma field_eq_str (v : string) (f : option Value) :
  Store.field_eq (VStr v) f = bool_decide (f = Some (VStr v)).
Proof.
  unfold Store.field_eq. destruct f as [x|].
  - apply bool_decide_ext. split; congruence.
  - rewrite !bool_decide_eq_false_2; [done | done | done].
Qed.

Lemma filter_query_matches (status : option TodoStatus)
    (priority : option TodoPriority) (d : gmap string Value) :
  Store.matches
    (match priority with
     | Some p =>
         <["priority" := CEq (VStr (TodoPriority_value p))]>
           (match status with
            | Some s => <["status" := CEq (VStr (TodoStatus_value s))]> ∅
            | None => ∅
            end)
     | None =>
         match status with
         | Some s => <["status" := CEq (VStr (TodoStatus_value s))]> ∅
         | None => ∅
         end
     end) d
  = matches_filter status priority d.
Proof.
  unfold matches_filter.
  destruct status as [s|], priority as [p|];
    rewrite ?matches_insert by done; rewrite matches_empty; simpl;
    rewrite ?field_eq_str, ?andb_true_r; try reflexivity.
  apply andb_comm.
Qed.

Lemma sort_insert_Permutation
    (leb : gmap string Value → gmap string Value → bool)
    (x : gmap string Value) (l : Collection) :
  Store.sort_insert leb x l ≡ₚ x :: l.
Proof.
  induction l as [|y l IH]; simpl; [done|].
  destruct (leb x y); [done|]. rewrite IH. apply Permutation_swap.
Qed.

Lemma sort_Permutation (sort_query : list (string * Z)) (docs : Collection) :
  Store.sort sort_query docs ≡ₚ docs.
Proof.
  unfold Store.sort. induction docs as [|d docs IH]; simpl; [done|].
  by rewrite sort_insert_Permutation, IH.
Qed.

Lemma find_well_formed (q : gmap string Cond) (coll : Collection) :
  Forall well_formed coll → Forall well_formed (Store.find q coll).
Proof.
  intros Hwf. apply Forall_forall. intros d Hd%list_elem_of_In%filter_In.
  rewrite Forall_forall in Hwf. apply Hwf, list_elem_of_In, Hd.
Qed.

Lemma collect_take_drop (docs : Collection) (ts : list TodoInDB.t)
    (n k : nat) :
  TodoRepository.collect docs = Ok ts →
  TodoRepository.collect (take n (drop k docs)) = Ok (take n (drop k ts)).
Proof.
  intros Hc%collect_Ok. apply collect_Ok.
  by apply Forall2_take, Forall2_drop.
Qed.

(** The quotient rounded up, for a positive divisor. *)
Lemma ceil_div_bounds (total size : Z) :
  0 < size →
  ∃ pages, ceil_div total size = Ok pages ∧
           (pages - 1) * size < total ≤ pages * size.
Proof.
  intros Hs. unfold ceil_div.
  destruct (Z.eqb_spec size 0) as [->|_]; [lia|].
  eexists. split; [reflexivity|].
  pose proof (Z.div_mod (- total) size ltac:(lia)).
  pose proof (Z.mod_pos_bound (- total) size Hs). nia.
Qed.

Lemma concat_pages {A} (l : list A) (n pages k : nat) :
  concat (map (λ p, take n (drop ((p - 1) * n) l)) (seq (S k) pages))
  = take (pages * n) (drop (k * n) l).
Proof.
  revert k. induction pages as [|pages IH]; intros k; simpl.
  - by rewrite take_0.
  - rewrite IH, Nat.sub_0_r.
    replace (S k * n)%nat with (k * n + n)%nat by lia.
    rewrite <- drop_drop. apply take_take_drop.
Qed.

Lemma concat_length_ext {A B C} (f : A → list B) (g : A → list C)
    (l : list A) :
  Forall (λ x, length (f x) = length (g x)) l →
  length (concat (map f l)) = length (concat (map g l)).
Proof.
  induction 1 as [|x l Hx _ IH]; simpl; [done|].
  rewrite !length_app. by rewrite Hx, IH.
Qed.

End Listing.

Section Listing_pages.

Variables (status : option TodoStatus) (priority : option TodoPriority).
Variables (sort_by sort_order : string) (coll : Collection).
Hypothesis coll_wf : Forall well_formed coll.

Lemma get_todos_window :
  ∃ all : list TodoInDB.t,
    length all = length (List.filter (matches_filter status priority) coll) ∧
    ∀ skip limit : Z, 0 ≤ skip → 0 < limit →
      TodoRepository.get_todos skip limit status priority sort_by sort_order
        coll
      = (Ok (take (Z.to_nat limit) (drop (Z.to_nat skip) all),
             Z.of_nat
               (length (List.filter (matches_filter status priority) coll))),
         coll).
Proof.
  unfold TodoRepository.get_todos, bind, read, lift, ret. cbv zeta.
  match goal with
  | |- context [Store.count_documents ?q0 _] => set (q := q0)
  end.
  match goal with
  | |- context [Store.sort ?s0 _] => set (sq := s0)
  end.
  assert (List.filter (Store.matches q) coll
          = List.filter (matches_filter status priority) coll) as Hq.
  { apply filter_ext. intros d. apply filter_query_matches. }
  clearbody q sq.
  destruct (collect_total (Store.sort sq (Store.find q coll))) as [all Hall].
  { rewrite sort_Permutation. by apply find_well_formed. }
  exists all. split.
  { rewrite (collect_length _ _ Hall), sort_Permutation.
    unfold Store.find. by rewrite Hq. }
  intros skip limit Hskip Hlimit.
  unfold Store.count_documents, Store.skip, Store.limit. rewrite Hq.
  destruct (Z.ltb_spec skip 0) as [?|_]; [lia|].
  destruct (Z.eqb_spec limit 0) as [?|_]; [lia|].
  rewrite Z.abs_eq by lia.
  by rewrite (collect_take_drop _ _ _ _ Hall).
Qed.

End Listing_pages.

Section Service_pages.

Variables (status : option TodoStatus) (priority : option TodoPriority).
Variables (sort_by sort_order : string) (coll : Collection).
Variables (all : list TodoInDB.t) (count : Z).
Hypothesis window : ∀ skip limit : Z, 0 ≤ skip → 0 < limit →
  TodoRepository.get_todos skip limit status priority sort_by sort_order coll
  = (Ok (take (Z.to_nat limit) (drop (Z.to_nat skip) all), count), coll).

Lemma service_get_todos_ok (page size : Z) :
  1 ≤ page → 1 ≤ size →
  TodoService.get_todos page size status priority sort_by sort_order coll
  = (Ok {| TodoListResponse.todos :=
             map TodoService._convert_to_response
               (take (Z.to_nat size) (drop (Z.to_nat ((page - 1) * size)) all));
           TodoListResponse.total := count;
           TodoListResponse.page := page;
           TodoListResponse.size := size;
           TodoListResponse.pages :=
             if count >? 0 then - (- count / size) else 1 |}, coll).
Proof.
  intros Hpage Hsize. unfold TodoService.get_todos, bind. cbv zeta.
  rewrite window by nia. unfold lift, ret, ceil_div.
  destruct (count >? 0); [|reflexivity].
  destruct (Z.eqb_spec size 0) as [?|_]; [lia | reflexivity].
Qed.

Lemma page_items_length (size : Z) (p : nat) :
  1 ≤ size → (1 ≤ p)%nat →
  length (page_items size status priority sort_by sort_order coll p)
  = length (take (Z.to_nat size) (drop ((p - 1) * Z.to_nat size) all)).
Proof.
  intros Hsize Hp. unfold page_items.
  rewrite service_get_todos_ok by lia. simpl. rewrite length_map.
  do 3 f_equal. rewrite Z2Nat.inj_mul by lia. f_equal. lia.
Qed.

Lemma pages_cover (size pages : Z) :
  1 ≤ size → Z.of_nat (length all) ≤ pages * size →
  length (concat (map (page_items size status priority sort_by sort_order coll)
                    (seq 1 (Z.to_nat pages))))
  = length all.
Proof.
  intros Hsize Hcover.
  rewrite (concat_length_ext _
             (λ p, take (Z.to_nat size) (drop ((p - 1) * Z.to_nat size) all))).
  - rewrite concat_pages, drop_0. rewrite take_ge; [done|].
    destruct (Z.le_gt_cases 0 pages) as [Hp|Hp].
    + rewrite <- Z2Nat.inj_mul by lia. lia.
    + assert (pages * size < 0) by nia. lia.
  - apply Forall_forall. intros p [Hp _]%elem_of_seq.
    by apply page_items_length.
Qed.

End Service_pages.

(** C3.  For a listing over a store whose documents are well formed there is
    one ordered list [all] of the matching records, as long as the count of
    the documents matching the filter, that every call shares: for every
    page from 1 and size from 1 (so in particular up to 100) the service
    asks the repository for [skip = (page - 1) * size] and [limit = size]
    and gets that window of [all] together with the count; the reported
    total is the count, whatever the page and size; when the total is
    positive the reported pages is the quotient total / size rounded up,
    and it is 1 when the total is 0; and the items of pages 1 to [pages]
    together are exactly total many. *)
Theorem paging (status : option TodoStatus) (priority : option TodoPriority)
    (sort_by sort_order : string) (coll : Collection) :
  Forall well_formed coll →
  ∃ all : list TodoInDB.t,
    length all = length (List.filter (matches_filter status priority) coll) ∧
    ∀ page size : Z, 1 ≤ page → 1 ≤ size →
      ∃ r : TodoListResponse.t,
        TodoRepository.get_todos ((page - 1) * size) size status priority
          sort_by sort_order coll
        = (Ok (take (Z.to_nat size) (drop (Z.to_nat ((page - 1) * size)) all),
               TodoListResponse.total r), coll) ∧
        TodoService.get_todos page size status priority sort_by sort_order coll
        = (Ok r, coll) ∧
        TodoListResponse.todos r
        = map TodoService._convert_to_response
            (take (Z.to_nat size) (drop (Z.to_nat ((page - 1) * size)) all)) ∧
        TodoListResponse.total r
        = Z.of_nat (length (List.filter (matches_filter status priority) coll)) ∧
        TodoListResponse.page r = page ∧
        TodoListResponse.size r = size ∧
        (0 < TodoListResponse.total r →
           (TodoListResponse.pages r - 1) * size < TodoListResponse.total r
             ≤ TodoListResponse.pages r * size) ∧
        (TodoListResponse.total r = 0 → TodoListResponse.pages r = 1) ∧
        Z.of_nat
          (length
             (concat
                (map (page_items size status priority sort_by sort_order coll)
                   (seq 1 (Z.to_nat (TodoListResponse.pages r))))))
        = TodoListResponse.total r.
Proof.
  intros Hwf.
  destruct (get_todos_window status priority sort_by sort_order coll Hwf)
    as (all & Hlen & Hwin).
  exists all. split; [exact Hlen|].
  intros page size Hpage Hsize.
  set (count := Z.of_nat (length (List.filter (matches_filter status priority)
                                    coll))) in *.
  exists {| TodoListResponse.todos :=
              map TodoService._convert_to_response
                (take (Z.to_nat size) (drop (Z.to_nat ((page - 1) * size)) all));
            TodoListResponse.total := count;
            TodoListResponse.page := page;
            TodoListResponse.size := size;
            TodoListResponse.pages :=
              if count >? 0 then - (- count / size) else 1 |}.
  cbn [TodoListResponse.todos TodoListResponse.total TodoListResponse.page
       TodoListResponse.size TodoListResponse.pages].
  split; [apply Hwin; nia|].
  split; [by apply (service_get_todos_ok _ _ _ _ _ all)|].
  split; [reflexivity|]. split; [reflexivity|].
  split; [reflexivity|]. split; [reflexivity|].
  assert (0 ≤ count) as Hcount by (unfold count; lia).
  destruct (ceil_div_bounds count size ltac:(lia)) as (pages & Hpages & Hb).
  unfold ceil_div in Hpages.
  destruct (Z.eqb_spec size 0) as [?|_]; [lia|]. injection Hpages as Hpages.
  rewrite Hpages.
  split; [intros Hpos; destruct (Z.gtb_spec count 0); [exact Hb | lia]|].
  split; [intros ->; reflexivity|].
  rewrite (pages_cover _ _ _ _ _ all count Hwin) by
    (rewrite ?Hlen; fold count; destruct (Z.gtb_spec count 0); lia).
  by rewrite Hlen.
Qed.

Lemma paging_witness :
  ∃ all : list TodoInDB.t,
    length all = length (List.filter (matches_filter None (Some MEDIUM))
                           sample_store) ∧
    ∀ page size : Z, 1 ≤ page → 1 ≤ size →
      ∃ r : TodoListResponse.t,
        TodoRepository.get_todos ((page - 1) * size) size None (Some MEDIUM)
          "created_at" "desc" sample_store
        = (Ok (take (Z.to_nat size) (drop (Z.to_nat ((page - 1) * size)) all),
               TodoListResponse.total r), sample_store) ∧
        TodoService.get_todos page size None (Some MEDIUM) "created_at" "desc"
          sample_store
        = (Ok r, sample_store) ∧
        TodoListResponse.todos r
        = map TodoService._convert_to_response
            (take (Z.to_nat size) (drop (Z.to_nat ((page - 1) * size)) all)) ∧
        TodoListResponse.total r
        = Z.of_nat (length (List.filter (matches_filter None (Some MEDIUM))
                              sample_store)) ∧
        TodoListResponse.page r = page ∧
        TodoListResponse.size r = size ∧
        (0 < TodoListResponse.total r →
           (TodoListResponse.pages r - 1) * size < TodoListResponse.total r
             ≤ TodoListResponse.pages r * size) ∧
        (TodoListResponse.total r = 0 → TodoListResponse.pages r = 1) ∧
        Z.of_nat
          (length
             (concat
                (map (page_items size None (Some MEDIUM) "created_at" "desc"
                        sample_store)
                   (seq 1 (Z.to_nat (TodoListResponse.pages r))))))
        = TodoListResponse.total r.
Proof.
  apply (paging None (Some MEDIUM) "created_at" "desc" sample_store).
  apply Forall_cons. split; [|constructor].
  exists (new_record 7%N 100 sample_create). split; reflexivity.
Defined.

(** ** Reachable stores *)

Section Reachable.

Lemma find_one_app (q : gmap string Cond) (l1 l2 : Collection) :
  Store.find_one q (l1 ++ l2)
  = match Store.find_one q l1 with
    | Some d => Some d
    | None => Store.find_one q l2
    end.
Proof.
  unfold Store.find_one. induction l1 as [|x l1 IH]; simpl; [done|].
  by destruct (Store.matches q x).
Qed.

Lemma existsb_field_eq_false (o : ObjectId.t) (coll : Collection) :
  existsb (λ d, Store.field_eq (VOid o) (d !! "_id")) coll = false →
  absent o coll.
Proof.
  induction coll as [|d coll IH]; simpl; [constructor|].
  intros [Hd Hc]%orb_false_elim. constructor; [|by apply IH].
  intros Hid%field_eq_oid. congruence.
Qed.

(** The collection after [create_todo]: untouched (the insert was
    refused), or extended by the new document. *)
Lemma create_todo_state (fresh : ObjectId.t) (now : Z) (data : TodoCreate.t)
    (coll : Collection) :
  (TodoRepository.create_todo fresh now data coll).2 = coll ∨
  (absent fresh coll ∧
   (TodoRepository.create_todo fresh now data coll).2
   = coll ++ [new_document fresh now data]).
Proof.
  destruct (existsb (λ d, Store.field_eq (VOid fresh) (d !! "_id")) coll)
    eqn:E.
  - left. rewrite create_todo_duplicate; [done|].
    intros Habs%existsb_field_eq_absent. congruence.
  - right. apply existsb_field_eq_false in E. split; [exact E|].
    unfold TodoRepository.create_todo, bind.
    rewrite insert_one_fresh by done. unfold read.
    rewrite find_one_hit;
      [| by apply absent_no_match
       | apply matches_id; unfold has_id, new_document; by simplify_map_eq].
    unfold lift. reflexivity.
Qed.

Lemma delete_todo_state (todo_id : string) (coll : Collection) :
  (TodoRepository.delete_todo todo_id coll).2 = coll ∨
  ∃ o l1 d l2,
    ObjectId.new todo_id = Ok o ∧ coll = l1 ++ d :: l2 ∧
    absent o l1 ∧ has_id o d ∧
    (TodoRepository.delete_todo todo_id coll).2 = l1 ++ l2.
Proof.
  destruct (ObjectId.is_valid todo_id) eqn:E.
  2: { left. unfold TodoRepository.delete_todo. by rewrite E. }
  destruct (ObjectId_is_valid_new _ E) as [o Ho].
  destruct (Store.find_one {["_id" := CEq (VOid o)]} coll) as [d|] eqn:Hf.
  - apply find_one_Some in Hf as (l1 & l2 & -> & Hm & Hl1).
    apply matches_id in Hm. apply absent_no_match in Hl1.
    right. exists o, l1, d, l2.
    rewrite (delete_todo_hit _ o) by done.
    split; [exact Ho|]. split; [reflexivity|].
    split; [exact Hl1|]. split; [exact Hm | reflexivity].
  - apply find_one_None, absent_no_match in Hf.
    left. by rewrite (delete_todo_miss _ o).
Qed.

Lemma unique_ids_snoc (o : ObjectId.t) (coll : Collection)
    (d : gmap string Value) :
  unique_ids coll → absent o coll → has_id o d → unique_ids (coll ++ [d]).
Proof.
  unfold unique_ids, absent, has_id. intros Hnd Habs Hd.
  rewrite map_app. simpl. apply NoDup_app. split; [exact Hnd|]. split.
  - intros x (y & -> & Hy)%list_elem_of_fmap Hx%list_elem_of_singleton.
    rewrite Forall_forall in Habs. apply (Habs y Hy). congruence.
  - apply NoDup_singleton.
Qed.

Lemma timestamps_ok_mono (t now : Z) (d : gmap string Value) :
  t ≤ now → timestamps_ok t d → timestamps_ok now d.
Proof.
  intros Hle (r & Hr & Hid & Hts). exists r. repeat split; try done; lia.
Qed.

Lemma timestamps_ok_well_formed (t : Z) (coll : Collection) :
  Forall (timestamps_ok t) coll → Forall well_formed coll.
Proof.
  intros H. eapply Forall_impl; [exact H|].
  intros d (r & Hr & Hid & _). by exists r.
Qed.

(** The invariant of reachable stores. *)
Lemma reachable_invariant (t : Z) (coll : Collection) :
  reachable t coll → Forall (timestamps_ok t) coll ∧ unique_ids coll.
Proof.
  induction 1 as [t|t now op coll _ [IHts IHu] Hle Hv].
  { split; [constructor | apply NoDup_nil_2]. }
  assert (Forall (timestamps_ok now) coll) as Hts.
  { eapply Forall_impl; [exact IHts|]. intros d. by apply timestamps_ok_mono. }
  clear IHts. destruct op as [fresh data|todo_id data|todo_id]; simpl in *.
  - destruct (create_todo_state fresh now data coll) as [->|[Habs ->]];
      [done|].
    split.
    + apply Forall_app. split; [exact Hts|]. apply Forall_singleton.
      exists (new_record fresh now data).
      split; [by apply of_dict_new_document|].
      split; [unfold has_id, new_document; by simplify_map_eq|].
      simpl. lia.
    + apply (unique_ids_snoc fresh); [done | done |].
      unfold has_id, new_document. by simplify_map_eq.
  - destruct (update_todo_state now todo_id data coll)
      as [->|(o & l1 & d & l2 & _ & _ & -> & _ & _ & ->)]; [done|].
    split.
    + apply Forall_app in Hts as [H1 [(r & Hr & Hid & Hb) H2]%Forall_cons].
      apply Forall_app. split; [exact H1|]. apply Forall_cons.
      split; [|exact H2].
      exists (apply_update now data r).
      split; [by apply of_dict_update|].
      split; [unfold has_id; by rewrite updated_id|].
      simpl. lia.
    + eapply unique_ids_replace; [|exact IHu]. apply updated_id.
  - destruct (delete_todo_state todo_id coll)
      as [->|(o & l1 & d & l2 & _ & -> & _ & _ & ->)]; [done|].
    split.
    + apply Forall_app in Hts as [H1 [_ H2]%Forall_cons].
      apply Forall_app. exact (conj H1 H2).
    + by eapply unique_ids_remove.
Qed.

End Reachable.

Section Fetch_after_step.

Lemma get_todo_by_id_find (todo_id : string) (coll : Collection)
    (r : TodoInDB.t) :
  (TodoRepository.get_todo_by_id todo_id coll).1 = Ok (Some r) ↔
  ∃ o d, ObjectId.new todo_id = Ok o ∧
         Store.find_one {["_id" := CEq (VOid o)]} coll = Some d ∧
         TodoInDB.of_dict d = Ok r.
Proof.
  split.
  - intros (o & l1 & d & l2 & Ho & -> & Hl1 & Hd & Hr)%get_todo_by_id_Some.
    exists o, d. split; [exact Ho|]. split; [|exact Hr].
    apply find_one_hit; [exact Hl1 | by apply matches_id].
  - intros (o & d & Ho & Hf & Hr).
    by rewrite (get_todo_by_id_eq _ _ _ Ho), Hf, Hr.
Qed.

Lemma find_one_cons (q : gmap string Cond) (x : gmap string Value)
    (l : Collection) :
  Store.find_one q (x :: l)
  = if Store.matches q x then Some x else Store.find_one q l.
Proof. reflexivity. Qed.

Lemma matches_id_updated (o : ObjectId.t) (now : Z) (data : TodoUpdate.t)
    (d : gmap string Value) :
  Store.matches {["_id" := CEq (VOid o)]} (update_fields now data ∪ d)
  = Store.matches {["_id" := CEq (VOid o)]} d.
Proof. by rewrite !matches_singleton, updated_id. Qed.

Variables (now : Z) (coll : Collection).
Hypothesis coll_wf : Forall well_formed coll.
Hypothesis coll_unique : unique_ids coll.

(** A record fetched before and after one operation has the identifier
    and the creation time it had. *)
Lemma fetch_after_step (op : Op) (todo_id : string) (r r' : TodoInDB.t) :
  op_valid op = true →
  (TodoRepository.get_todo_by_id todo_id coll).1 = Ok (Some r) →
  (TodoRepository.get_todo_by_id todo_id (step now op coll)).1 = Ok (Some r') →
  TodoInDB.id r' = TodoInDB.id r ∧
  TodoInDB.created_at r' = TodoInDB.created_at r.
Proof.
  intros Hv (o & d & Ho & Hf & Hr)%get_todo_by_id_find
    (o' & d' & Ho' & Hf' & Hr')%get_todo_by_id_find.
  assert (o' = o) as -> by congruence. clear Ho'.
  destruct op as [fresh data|upd_id data|del_id]; simpl in *.
  - destruct (create_todo_state fresh now data coll) as [E|[_ E]];
      rewrite E in Hf'.
    + assert (d' = d) as -> by congruence.
      assert (r' = r) as -> by congruence. split; reflexivity.
    + rewrite find_one_app, Hf in Hf'.
      assert (d' = d) as -> by congruence.
      assert (r' = r) as -> by congruence. split; reflexivity.
  - destruct (update_todo_state now upd_id data coll)
      as [E|(o2 & l1 & d2 & l2 & _ & _ & -> & _ & _ & E)]; rewrite E in Hf'.
    + assert (d' = d) as -> by congruence.
      assert (r' = r) as -> by congruence. split; reflexivity.
    + rewrite find_one_app, find_one_cons in Hf, Hf'.
      rewrite matches_id_updated in Hf'.
      destruct (Store.find_one _ l1) as [x|].
      { assert (d' = d) as -> by congruence.
        assert (r' = r) as -> by congruence. split; reflexivity. }
      destruct (Store.matches _ d2).
      * apply (inj Some) in Hf. apply (inj Some) in Hf'. subst d d'.
        rewrite (of_dict_update now data d2 r) in Hr' by done.
        injection Hr' as <-. split; reflexivity.
      * assert (d' = d) as -> by congruence.
        assert (r' = r) as -> by congruence. split; reflexivity.
  - destruct (delete_todo_state del_id coll)
      as [E|(o2 & l1 & d2 & l2 & _ & -> & _ & Hd2 & E)]; rewrite E in Hf'.
    + assert (d' = d) as -> by congruence.
      assert (r' = r) as -> by congruence. split; reflexivity.
    + rewrite find_one_app in Hf'. rewrite find_one_app, find_one_cons in Hf.
      destruct (Store.find_one _ l1) as [x|].
      { assert (d' = d) as -> by congruence.
        assert (r' = r) as -> by congruence. split; reflexivity. }
      destruct (Store.matches _ d2) eqn:Hm.
      * exfalso. apply matches_id in Hm.
        pose proof (unique_ids_rest _ _ _ _ coll_unique Hm) as Habs.
        apply Forall_app in Habs as [_ Habs].
        apply absent_no_match, find_one_None in Habs. congruence.
      * assert (d' = d) as -> by congruence.
        assert (r' = r) as -> by congruence. split; reflexivity.
Qed.

End Fetch_after_step.

(** C9.  In every store reached from the empty one by creations, updates
    and deletions on validated inputs, under a clock that never goes back,
    each stored record has [created_at ≤ updated_at] (and neither is later
    than the clock); and an operation run at a clock reading not before the
    last one leaves the creation time of every record that can be fetched
    before and after it unchanged. *)
Theorem timestamps_invariant (t : Z) (coll : Collection) :
  reachable t coll →
  (∀ r, record_of coll r →
        TodoInDB.created_at r ≤ TodoInDB.updated_at r ≤ t) ∧
  (∀ todo_id r,
     (TodoRepository.get_todo_by_id todo_id coll).1 = Ok (Some r) →
     TodoInDB.created_at r ≤ TodoInDB.updated_at r) ∧
  (∀ now op todo_id r r',
     t ≤ now → op_valid op = true →
     (TodoRepository.get_todo_by_id todo_id coll).1 = Ok (Some r) →
     (TodoRepository.get_todo_by_id todo_id (step now op coll)).1
       = Ok (Some r') →
     TodoInDB.created_at r' = TodoInDB.created_at r ∧
     TodoInDB.created_at r' ≤ TodoInDB.updated_at r').
Proof.
  intros Hreach.
  destruct (reachable_invariant t coll Hreach) as [Hts Huniq].
  assert (∀ t0 c r, Forall (timestamps_ok t0) c → record_of c r →
                    TodoInDB.created_at r ≤ TodoInDB.updated_at r ≤ t0) as Hrec.
  { intros t0 c r Hc (d & Hd & Hr). rewrite Forall_forall in Hc.
    destruct (Hc d Hd) as (r0 & Hr0 & _ & Hb).
    assert (r0 = r) as -> by congruence. exact Hb. }
  assert (∀ c todo_id r,
            (TodoRepository.get_todo_by_id todo_id c).1 = Ok (Some r) →
            record_of c r) as Hfetch.
  { intros c todo_id r
      (o & l1 & d & l2 & _ & -> & _ & _ & Hr)%get_todo_by_id_Some.
    exists d. split; [|exact Hr]. apply elem_of_app. right.
    apply list_elem_of_here. }
  split; [intros r; by apply Hrec|].
  split.
  { intros todo_id r Hr%Hfetch. by apply (Hrec t coll). }
  intros now op todo_id r r' Hle Hv Hr Hr'. split.
  - eapply (fetch_after_step now coll); try done.
    by eapply timestamps_ok_well_formed.
  - pose proof (reachable_step t now op coll Hreach Hle Hv) as Hreach'.
    destruct (reachable_invariant _ _ Hreach') as [Hts' _].
    apply Hfetch in Hr'. by apply (Hrec now (step now op coll)).
Qed.

Lemma timestamps_invariant_witness :
  (∀ r, record_of (step 100 (Create 7%N sample_create) []) r →
        TodoInDB.created_at r ≤ TodoInDB.updated_at r ≤ 100) ∧
  (∀ todo_id r,
     (TodoRepository.get_todo_by_id todo_id
        (step 100 (Create 7%N sample_create) [])).1 = Ok (Some r) →
     TodoInDB.created_at r ≤ TodoInDB.updated_at r) ∧
  (∀ now op todo_id r r',
     100 ≤ now → op_valid op = true →
     (TodoRepository.get_todo_by_id todo_id
        (step 100 (Create 7%N sample_create) [])).1 = Ok (Some r) →
     (TodoRepository.get_todo_by_id todo_id
        (step now op (step 100 (Create 7%N sample_create) []))).1
       = Ok (Some r') →
     TodoInDB.created_at r' = TodoInDB.created_at r ∧
     TodoInDB.created_at r' ≤ TodoInDB.updated_at r').
Proof.
  apply (timestamps_invariant 100 (step 100 (Create 7%N sample_create) [])).
  apply (reachable_step 0 100 (Create 7%N sample_create) []).
  - apply reachable_empty.
  - lia.
  - reflexivity.
Defined.

(** ** Three todos sorted by priority *)

Section Scenario.

Lemma service_create_todo_ok (fresh : ObjectId.t) (now : Z)
    (data : TodoCreate.t) (coll : Collection) :
  TodoCreate.valid data = true →
  absent fresh coll →
  TodoService.create_todo fresh now data coll
  = (Ok (TodoService._convert_to_response (new_record fresh now data)),
     coll ++ [new_document fresh now data]).
Proof.
  intros Hv Habs. unfold TodoService.create_todo, bind.
  by rewrite create_todo_ok.
Qed.

Lemma has_id_new_document (o fresh : ObjectId.t) (now : Z)
    (data : TodoCreate.t) :
  has_id o (new_document fresh now data) ↔ o = fresh.
Proof.
  unfold has_id, new_document. rewrite lookup_insert_eq.
  split; congruence.
Qed.

Lemma after_three_eq (o1 o2 o3 : ObjectId.t) (t1 t2 t3 : Z)
    (d1 d2 d3 : TodoCreate.t) :
  TodoCreate.valid d1 = true → TodoCreate.valid d2 = true →
  TodoCreate.valid d3 = true →
  o1 ≠ o2 → o1 ≠ o3 → o2 ≠ o3 →
  after_three o1 o2 o3 t1 t2 t3 d1 d2 d3
  = [new_document o1 t1 d1; new_document o2 t2 d2; new_document o3 t3 d3].
Proof.
  intros Hv1 Hv2 Hv3 H12 H13 H23. unfold after_three. cbv zeta.
  rewrite (service_create_todo_ok o1) by (done || constructor).
  cbn [snd app].
  rewrite (service_create_todo_ok o2);
    [| done | repeat constructor; rewrite has_id_new_document; congruence].
  cbn [snd app].
  rewrite (service_create_todo_ok o3);
    [| done | repeat constructor; rewrite has_id_new_document; congruence].
  reflexivity.
Qed.

Lemma sort_key_priority (fresh : ObjectId.t) (now : Z) (data : TodoCreate.t) :
  Store.sort_key "priority" (new_document fresh now data)
  = VStr (TodoPriority_value (TodoCreate.priority data)).
Proof.
  unfold Store.sort_key, new_document, TodoCreate.dict. by simplify_map_eq.
Qed.

Lemma sort_leb_priority (o o' : ObjectId.t) (t t' : Z) (d d' : TodoCreate.t) :
  Store.sort_leb [("priority", ASCENDING)]
    (new_document o t d) (new_document o' t' d')
  = bson_leb (VStr (TodoPriority_value (TodoCreate.priority d)))
             (VStr (TodoPriority_value (TodoCreate.priority d'))).
Proof.
  unfold Store.sort_leb, bson_leb. cbn [Store.sort_compare].
  rewrite !sort_key_priority.
  by destruct (TodoCreate.priority d), (TodoCreate.priority d').
Qed.

Lemma find_all (coll : Collection) : Store.find ∅ coll = coll.
Proof.
  unfold Store.find. induction coll as [|d coll IH]; simpl; [done|].
  by rewrite matches_empty, IH.
Qed.

End Scenario.

(** C8, as the code behaves.  After creating, from the empty store, three
    valid todos with priorities low, medium and high (under distinct
    identifiers), the first page of size 2 of the listing sorted by
    priority in ascending order holds exactly two todos, the high one and
    then the low one: the store orders the priority strings, and
    ["high" < "low" < "medium"].  The response reports total 3 and pages 2. *)
Theorem priority_listing (o1 o2 o3 : ObjectId.t) (t1 t2 t3 : Z)
    (d1 d2 d3 : TodoCreate.t) :
  TodoCreate.valid d1 = true → TodoCreate.valid d2 = true →
  TodoCreate.valid d3 = true →
  TodoCreate.priority d1 = LOW → TodoCreate.priority d2 = MEDIUM →
  TodoCreate.priority d3 = HIGH →
  o1 ≠ o2 → o1 ≠ o3 → o2 ≠ o3 →
  ∃ r : TodoListResponse.t,
    TodoService.get_todos 1 2 None None "priority" "asc"
      (after_three o1 o2 o3 t1 t2 t3 d1 d2 d3)
    = (Ok r, after_three o1 o2 o3 t1 t2 t3 d1 d2 d3) ∧
    TodoListResponse.todos r
    = [TodoService._convert_to_response (new_record o3 t3 d3);
       TodoService._convert_to_response (new_record o1 t1 d1)] ∧
    map TodoResponse.priority (TodoListResponse.todos r) = [HIGH; LOW] ∧
    TodoListResponse.total r = 3 ∧
    TodoListResponse.pages r = 2.
Proof.
  intros Hv1 Hv2 Hv3 Hp1 Hp2 Hp3 H12 H13 H23.
  rewrite after_three_eq by done.
  assert (Store.sort_leb [("priority", ASCENDING)]
            (new_document o2 t2 d2) (new_document o3 t3 d3) = false) as L23
    by (rewrite sort_leb_priority, Hp2, Hp3; reflexivity).
  assert (Store.sort_leb [("priority", ASCENDING)]
            (new_document o1 t1 d1) (new_document o3 t3 d3) = false) as L13
    by (rewrite sort_leb_priority, Hp1, Hp3; reflexivity).
  assert (Store.sort_leb [("priority", ASCENDING)]
            (new_document o1 t1 d1) (new_document o2 t2 d2) = true) as L12
    by (rewrite sort_leb_priority, Hp1, Hp2; reflexivity).
  pose proof (of_dict_new_document o1 t1 d1 Hv1) as P1.
  pose proof (of_dict_new_document o3 t3 d3 Hv3) as P3.
  set (n1 := new_document o1 t1 d1) in *.
  set (n2 := new_document o2 t2 d2) in *.
  set (n3 := new_document o3 t3 d3) in *.
  clearbody n1 n2 n3.
  eexists. split.
  - unfold TodoService.get_todos, TodoRepository.get_todos, bind, read, lift,
      ret. cbv zeta.
    unfold Store.count_documents. fold (Store.find ∅ [n1; n2; n3]).
    rewrite find_all.
    change (String.eqb (lower "asc") "desc") with false. cbv iota.
    unfold Store.sort. cbn [foldr Store.sort_insert].
    rewrite L23. cbn [Store.sort_insert]. rewrite L13.
    cbn [Store.sort_insert]. rewrite L12.
    change ((1 - 1) * 2) with 0.
    unfold Store.skip, Store.limit. cbn [Z.ltb Z.eqb Z.compare].
    change (take (Z.to_nat (Z.abs 2)) (drop (Z.to_nat 0) [n3; n1; n2]))
      with [n3; n1].
    cbn [TodoRepository.collect]. rewrite P3, P1. reflexivity.
  - cbn [TodoListResponse.todos TodoListResponse.total TodoListResponse.pages
         map]. simpl TodoResponse.priority.
    rewrite Hp1, Hp3. by repeat split.
Qed.

Lemma priority_listing_witness :
  ∃ r : TodoListResponse.t,
    TodoService.get_todos 1 2 None None "priority" "asc" scenario_store
    = (Ok r, scenario_store) ∧
    TodoListResponse.todos r
    = [TodoService._convert_to_response
         (new_record 3%N 12 (with_priority "third" HIGH));
       TodoService._convert_to_response
         (new_record 1%N 10 (with_priority "first" LOW))] ∧
    map TodoResponse.priority (TodoListResponse.todos r) = [HIGH; LOW] ∧
    TodoListResponse.total r = 3 ∧
    TodoListResponse.pages r = 2.
Proof.
  apply (priority_listing 1%N 2%N 3%N 10 11 12
           (with_priority "first" LOW) (with_priority "second" MEDIUM)
           (with_priority "third" HIGH));
    (reflexivity || (intros H; discriminate H)).
Defined.

(** The listing of the scenario is not ordered low, medium. *)
Lemma priority_listing_counterexample :
  ¬ ∃ r : TodoListResponse.t,
      (TodoService.get_todos 1 2 None None "priority" "asc" scenario_store).1
      = Ok r ∧
      map TodoResponse.priority (TodoListResponse.todos r) = [LOW; MEDIUM] ∧
      TodoListResponse.total r = 3 ∧
      TodoListResponse.pages r = 2.
Proof.
  intros (r & Hr & Hp & _).
  vm_compute in Hr. injection Hr as <-. vm_compute in Hp. discriminate Hp.
Qed.

(** * Further properties of the code *)

(** ** Updates that find nothing, or change nothing *)

(** X1.  Updating with a well-formed identifier that no stored document
    carries returns absent, at the repository and through the service, and
    writes nothing, whatever the input supplies. *)
Theorem update_absent_not_found (now : Z) (todo_id : string) (o : ObjectId.t)
    (data : TodoUpdate.t) (coll : Collection) :
  ObjectId.new todo_id = Ok o →
  absent o coll →
  TodoRepository.update_todo now todo_id data coll = (Ok None, coll) ∧
  TodoService.update_todo now todo_id data coll = (Ok None, coll).
Proof.
  intros Ho Habs.
  pose proof (update_todo_miss now todo_id data o coll Ho Habs) as Hupd.
  split; [exact Hupd|].
  unfold TodoService.update_todo, bind. by rewrite Hupd.
Qed.

Lemma update_absent_not_found_witness :
  TodoRepository.update_todo 200 (ObjectId.str 8%N) (only_status COMPLETED)
    sample_store = (Ok None, sample_store) ∧
  TodoService.update_todo 200 (ObjectId.str 8%N) (only_status COMPLETED)
    sample_store = (Ok None, sample_store).
Proof.
  apply (update_absent_not_found 200 (ObjectId.str 8%N) 8%N
           (only_status COMPLETED) sample_store).
  - reflexivity.
  - constructor; [|constructor]. intros H. discriminate H.
Defined.

Lemma parse_title_Ok (v : option Value) (s : string) :
  TodoInDB.parse_title v = Ok s → v = Some (VStr s).
Proof.
  destruct v as [[|x| |]|]; simpl; try discriminate.
  destruct (title_ok x); [|discriminate]. by intros [= ->].
Qed.

Lemma retitle_same_document (d : gmap string Value) (old : TodoInDB.t) :
  TodoInDB.of_dict d = Ok old →
  update_fields (TodoInDB.updated_at old) (only_title (TodoInDB.title old)) ∪ d
  = d.
Proof.
  intros (_ & Ht%parse_title_Ok & _ & _ & _ & _ & _ & Hu%parse_datetime_Ok)%of_dict_Ok.
  apply map_eq. intros k. rewrite lookup_union, update_fields_lookup.
  destruct (decide (k = "updated_at")) as [->|Hk1]; [by rewrite Hu|].
  unfold TodoUpdate.dict, only_title. cbn [TodoUpdate.title
    TodoUpdate.description TodoUpdate.status TodoUpdate.priority
    TodoUpdate.due_date opt_value].
  destruct (decide (k = "title")) as [->|Hk2].
  { rewrite lookup_insert_eq, Ht. by destruct (decide _). }
  rewrite lookup_insert_ne by done.
  destruct (decide (k = "description")) as [->|Hk3].
  { rewrite lookup_insert_eq. destruct (decide _); [|done].
    by destruct (d !! "description"). }
  rewrite lookup_insert_ne by done.
  destruct (decide (k = "status")) as [->|Hk4].
  { rewrite lookup_insert_eq. destruct (decide _); [|done].
    by destruct (d !! "status"). }
  rewrite lookup_insert_ne by done.
  destruct (decide (k = "priority")) as [->|Hk5].
  { rewrite lookup_insert_eq. destruct (decide _); [|done].
    by destruct (d !! "priority"). }
  rewrite lookup_insert_ne by done.
  destruct (decide (k = "due_date")) as [->|Hk6].
  { rewrite lookup_insert_eq. destruct (decide _); [|done].
    by destruct (d !! "due_date"). }
  rewrite lookup_insert_ne by done. rewrite lookup_empty.
  by destruct (d !! k).
Qed.

(** X2.  An update that changes nothing is reported as absent although the
    todo exists: supplying the stored title again, at the very clock
    reading of the record's last update, makes the store report no
    modified document, so [update_todo] returns absent (at the repository
    and through the service); the collection is as before and the todo can
    still be fetched. *)
Theorem unchanged_update_not_found (todo_id : string) (coll : Collection)
    (old : TodoInDB.t) :
  (TodoRepository.get_todo_by_id todo_id coll).1 = Ok (Some old) →
  TodoRepository.update_todo (TodoInDB.updated_at old) todo_id
    (only_title (TodoInDB.title old)) coll = (Ok None, coll) ∧
  TodoService.update_todo (TodoInDB.updated_at old) todo_id
    (only_title (TodoInDB.title old)) coll = (Ok None, coll) ∧
  TodoRepository.get_todo_by_id todo_id coll = (Ok (Some old), coll).
Proof.
  intros Hold.
  destruct (get_todo_by_id_Some _ _ _ Hold)
    as (o & l1 & d & l2 & Ho & -> & Hl1 & Hd & Hdoc).
  assert (TodoRepository.update_todo (TodoInDB.updated_at old) todo_id
            (only_title (TodoInDB.title old)) (l1 ++ d :: l2)
          = (Ok None, l1 ++ d :: l2)) as Hupd.
  { rewrite (update_todo_hit _ _ _ o) by done.
    rewrite (retitle_same_document d old Hdoc).
    destruct (decide (d = d)) as [_|Hne]; [reflexivity | by destruct Hne]. }
  split; [exact Hupd|]. split.
  - unfold TodoService.update_todo, bind. by rewrite Hupd.
  - rewrite (get_todo_by_id_hit _ o) by done. by rewrite Hdoc.
Qed.

Lemma unchanged_update_not_found_witness :
  TodoRepository.update_todo
    (TodoInDB.updated_at (new_record 7%N 100 sample_create)) (ObjectId.str 7%N)
    (only_title (TodoInDB.title (new_record 7%N 100 sample_create)))
    sample_store = (Ok None, sample_store) ∧
  TodoService.update_todo
    (TodoInDB.updated_at (new_record 7%N 100 sample_create)) (ObjectId.str 7%N)
    (only_title (TodoInDB.title (new_record 7%N 100 sample_create)))
    sample_store = (Ok None, sample_store) ∧
  TodoRepository.get_todo_by_id (ObjectId.str 7%N) sample_store
  = (Ok (Some (new_record 7%N 100 sample_create)), sample_store).
Proof.
  apply (unchanged_update_not_found (ObjectId.str 7%N) sample_store
           (new_record 7%N 100 sample_create)).
  vm_compute. reflexivity.
Defined.

(** ** What every reachable store satisfies *)

Lemma explicit_update (now : Z) (data : TodoUpdate.t) (d : gmap string Value) :
  explicit d → explicit (update_fields now data ∪ d).
Proof.
  intros [Hs Hp]. split; apply lookup_union_is_Some; by right.
Qed.

Lemma reachable_explicit (t : Z) (coll : Collection) :
  reachable t coll → Forall explicit coll.
Proof.
  induction 1 as [t|t now op coll _ IH Hle Hv]; [constructor|].
  destruct op as [fresh data|todo_id data|todo_id]; simpl.
  - destruct (create_todo_state fresh now data coll) as [->|[_ ->]];
      [exact IH|].
    apply Forall_app. split; [exact IH|]. apply Forall_singleton.
    unfold explicit, new_document, TodoCreate.dict. by simplify_map_eq.
  - destruct (update_todo_state now todo_id data coll)
      as [->|(o & l1 & d & l2 & _ & _ & -> & _ & _ & ->)]; [exact IH|].
    apply Forall_app in IH as [H1 [Hd H2]%Forall_cons].
    apply Forall_app. split; [exact H1|]. apply Forall_cons.
    split; [by apply explicit_update | exact H2].
  - destruct (delete_todo_state todo_id coll)
      as [->|(o & l1 & d & l2 & _ & -> & _ & _ & ->)]; [exact IH|].
    apply Forall_app in IH as [H1 [_ H2]%Forall_cons].
    apply Forall_app. exact (conj H1 H2).
Qed.

Lemma TodoStatus_value_inj (a b : TodoStatus) :
  TodoStatus_value a = TodoStatus_value b → a = b.
Proof. by destruct a, b. Qed.

Lemma status_query_matches (s : TodoStatus) (d : gmap string Value)
    (r : TodoInDB.t) :
  TodoInDB.of_dict d = Ok r → explicit d →
  Store.matches {["status" := CEq (VStr (TodoStatus_value s))]} d
  = bool_decide (TodoInDB.status r = s).
Proof.
  intros (_ & _ & _ & Hs & _)%of_dict_Ok [[v Hv] _].
  rewrite matches_singleton. cbn [Store.field_matches].
  rewrite field_eq_str, Hv. rewrite Hv in Hs.
  destruct v as [|x| |]; simpl in Hs; try discriminate.
  destruct (TodoStatus_of_value x) as [y|] eqn:Hx; [|discriminate].
  apply TodoStatus_of_value_inv in Hx as ->. injection Hs as ->.
  apply bool_decide_ext. split.
  - intros [= H]. by apply TodoStatus_value_inj.
  - by intros ->.
Qed.

Lemma by_status_filter (s : TodoStatus) (coll : Collection) :
  Forall well_formed coll → Forall explicit coll →
  ∃ all, TodoRepository.collect coll = Ok all ∧
         TodoRepository.collect
           (Store.find {["status" := CEq (VStr (TodoStatus_value s))]} coll)
         = Ok (List.filter (λ r, bool_decide (TodoInDB.status r = s)) all).
Proof.
  unfold Store.find.
  induction 1 as [|d coll (r & Hr & _) _ IH]; intros He.
  { exists []. by split. }
  apply Forall_cons in He as [Hd He].
  destruct (IH He) as (all & Hall & Hfilt).
  exists (r :: all). cbn [TodoRepository.collect List.filter].
  rewrite Hr, Hall. split; [reflexivity|].
  rewrite (status_query_matches s d r Hr Hd).
  destruct (bool_decide (TodoInDB.status r = s));
    cbn [TodoRepository.collect]; by rewrite ?Hr, Hfilt.
Qed.

(** X3.  In a reachable store, [get_todos_by_status] returns, in the order
    of the collection, exactly the stored records whose status is the
    requested one: reading all documents as records and keeping those with
    that status gives the same list; the service returns their response
    forms. *)
Theorem by_status_exact (t : Z) (coll : Collection) (s : TodoStatus) :
  reachable t coll →
  ∃ all : list TodoInDB.t,
    TodoRepository.collect coll = Ok all ∧
    TodoRepository.get_todos_by_status s coll
    = (Ok (List.filter (λ r, bool_decide (TodoInDB.status r = s)) all), coll) ∧
    TodoService.get_todos_by_status s coll
    = (Ok (map TodoService._convert_to_response
             (List.filter (λ r, bool_decide (TodoInDB.status r = s)) all)),
       coll).
Proof.
  intros Hreach.
  destruct (reachable_invariant t coll Hreach) as [Hts _].
  apply timestamps_ok_well_formed in Hts.
  destruct (by_status_filter s coll Hts (reachable_explicit t coll Hreach))
    as (all & Hall & Hfilt).
  exists all. split; [exact Hall|].
  assert (TodoRepository.get_todos_by_status s coll
          = (Ok (List.filter (λ r, bool_decide (TodoInDB.status r = s)) all),
             coll)) as Hrepo.
  { unfold TodoRepository.get_todos_by_status, bind, read, lift.
    by rewrite Hfilt. }
  split; [exact Hrepo|].
  unfold TodoService.get_todos_by_status, bind. by rewrite Hrepo.
Qed.

Lemma by_status_exact_witness :
  ∃ all : list TodoInDB.t,
    TodoRepository.collect (step 100 (Create 7%N sample_create) []) = Ok all ∧
    TodoRepository.get_todos_by_status PENDING
      (step 100 (Create 7%N sample_create) [])
    = (Ok (List.filter (λ r, bool_decide (TodoInDB.status r = PENDING)) all),
       step 100 (Create 7%N sample_create) []) ∧
    TodoService.get_todos_by_status PENDING
      (step 100 (Create 7%N sample_create) [])
    = (Ok (map TodoService._convert_to_response
             (List.filter (λ r, bool_decide (TodoInDB.status r = PENDING)) all)),
       step 100 (Create 7%N sample_create) []).
Proof.
  apply (by_status_exact 100 (step 100 (Create 7%N sample_create) []) PENDING).
  apply (reachable_step 0 100 (Create 7%N sample_create) []).
  - apply reachable_empty.
  - lia.
  - reflexivity.
Defined.

Lemma get_todo_by_id_total (todo_id : string) (coll : Collection) :
  Forall well_formed coll →
  ∃ r, TodoRepository.get_todo_by_id todo_id coll = (Ok r, coll).
Proof.
  intros Hwf. destruct (ObjectId.is_valid todo_id) eqn:E.
  - destruct (ObjectId_is_valid_new _ E) as [o Ho].
    rewrite (get_todo_by_id_eq _ _ _ Ho).
    destruct (Store.find_one _ coll) as [d|] eqn:Hf; [|by eexists].
    apply find_one_Some in Hf as (l1 & l2 & -> & _ & _).
    apply Forall_app in Hwf as [_ [(r & Hr & _) _]%Forall_cons].
    rewrite Hr. by eexists.
  - rewrite get_todo_by_id_invalid by done. by eexists.
Qed.

(** X4.  Reads never fail on a store the repository has written: in every
    store reached from the empty one by creations, updates and deletions on
    validated inputs, all documents read back as records and identifiers
    are unique, so a fetch by any identifier string, a listing by any
    status, the overdue listing at any instant, and any page (from 1) of
    any size (from 1) of a filtered, sorted listing all return a result
    and leave the collection as it is. *)
Theorem reachable_reads_succeed (t : Z) (coll : Collection) :
  reachable t coll →
  store_ok coll ∧
  (∀ todo_id, ∃ r, TodoService.get_todo todo_id coll = (Ok r, coll)) ∧
  (∀ s, ∃ ts, TodoService.get_todos_by_status s coll = (Ok ts, coll)) ∧
  (∀ now, ∃ ts, TodoService.get_overdue_todos now coll = (Ok ts, coll)) ∧
  (∀ page size status priority sort_by sort_order,
     1 ≤ page → 1 ≤ size →
     ∃ r, TodoService.get_todos page size status priority sort_by sort_order
            coll = (Ok r, coll)).
Proof.
  intros Hreach.
  destruct (reachable_invariant t coll Hreach) as [Hts Huniq].
  apply timestamps_ok_well_formed in Hts.
  split; [by split|]. split.
  { intros todo_id. destruct (get_todo_by_id_total todo_id coll Hts) as [r Hr].
    unfold TodoService.get_todo, bind. rewrite Hr.
    destruct r; by eexists. }
  split.
  { intros s. unfold TodoService.get_todos_by_status,
      TodoRepository.get_todos_by_status, bind, read, lift.
    destruct (collect_total
                (Store.find {["status" := CEq (VStr (TodoStatus_value s))]}
                   coll)) as [ts Hc]; [by apply find_well_formed|].
    rewrite Hc. by eexists. }
  split.
  { intros now. destruct (overdue_members now coll Hts) as (ts & Hov & _).
    unfold TodoService.get_overdue_todos, bind. rewrite Hov. by eexists. }
  intros page size status priority sort_by sort_order Hpage Hsize.
  destruct (get_todos_window status priority sort_by sort_order coll Hts)
    as (all & _ & Hwin).
  eexists. by apply (service_get_todos_ok _ _ _ _ _ all).
Qed.

Lemma reachable_reads_succeed_witness :
  store_ok (step 100 (Create 7%N sample_create) []) ∧
  (∀ todo_id, ∃ r, TodoService.get_todo todo_id
                     (step 100 (Create 7%N sample_create) [])
                   = (Ok r, step 100 (Create 7%N sample_create) [])) ∧
  (∀ s, ∃ ts, TodoService.get_todos_by_status s
                (step 100 (Create 7%N sample_create) [])
              = (Ok ts, step 100 (Create 7%N sample_create) [])) ∧
  (∀ now, ∃ ts, TodoService.get_overdue_todos now
                  (step 100 (Create 7%N sample_create) [])
                = (Ok ts, step 100 (Create 7%N sample_create) [])) ∧
  (∀ page size status priority sort_by sort_order,
     1 ≤ page → 1 ≤ size →
     ∃ r, TodoService.get_todos page size status priority sort_by sort_order
            (step 100 (Create 7%N sample_create) [])
          = (Ok r, step 100 (Create 7%N sample_create) [])).
Proof.
  apply (reachable_reads_succeed 100 (step 100 (Create 7%N sample_create) [])).
  apply (reachable_step 0 100 (Create 7%N sample_create) []).
  - apply reachable_empty.
  - lia.
  - reflexivity.
Defined.

(** ** Operations touch one todo *)

Lemma find_one_other_after_step (now : Z) (op : Op) (coll : Collection)
    (o' : ObjectId.t) :
  op_target op ≠ Some o' →
  Store.find_one {["_id" := CEq (VOid o')]} (step now op coll)
  = Store.find_one {["_id" := CEq (VOid o')]} coll.
Proof.
  intros Hne. destruct op as [fresh data|todo_id data|todo_id]; simpl in *.
  - destruct (create_todo_state fresh now data coll) as [->|[_ ->]];
      [reflexivity|].
    rewrite find_one_app, find_one_cons.
    assert (Store.matches {["_id" := CEq (VOid o')]}
              (new_document fresh now data) = false) as ->.
    { apply matches_id_false. rewrite has_id_new_document. congruence. }
    by destruct (Store.find_one _ coll).
  - destruct (update_todo_state now todo_id data coll)
      as [->|(o & l1 & d & l2 & Ho & _ & -> & _ & Hd & ->)]; [reflexivity|].
    rewrite Ho in Hne. rewrite !find_one_app, !find_one_cons.
    rewrite matches_id_updated.
    assert (Store.matches {["_id" := CEq (VOid o')]} d = false) as ->.
    { apply matches_id_false. intros Hd'.
      apply Hne. f_equal. by apply (has_id_inj _ _ d). }
    reflexivity.
  - destruct (delete_todo_state todo_id coll)
      as [->|(o & l1 & d & l2 & Ho & -> & _ & Hd & ->)]; [reflexivity|].
    rewrite Ho in Hne. rewrite !find_one_app, find_one_cons.
    assert (Store.matches {["_id" := CEq (VOid o')]} d = false) as ->.
    { apply matches_id_false. intros Hd'.
      apply Hne. f_equal. by apply (has_id_inj _ _ d). }
    reflexivity.
Qed.

(** X5.  A creation, update or deletion leaves every other todo as it was:
    a fetch by an identifier other than the one the operation is about
    gives the same result after the operation as before, on any
    collection and for any input. *)
Theorem other_todos_untouched (now : Z) (op : Op) (coll : Collection)
    (todo_id : string) (o' : ObjectId.t) :
  ObjectId.new todo_id = Ok o' →
  op_target op ≠ Some o' →
  (TodoRepository.get_todo_by_id todo_id (step now op coll)).1
  = (TodoRepository.get_todo_by_id todo_id coll).1 ∧
  (TodoService.get_todo todo_id (step now op coll)).1
  = (TodoService.get_todo todo_id coll).1.
Proof.
  intros Ho Hne.
  assert ((TodoRepository.get_todo_by_id todo_id (step now op coll)).1
          = (TodoRepository.get_todo_by_id todo_id coll).1) as Hrepo.
  { rewrite !(get_todo_by_id_eq _ _ _ Ho). cbn [fst].
    by rewrite find_one_other_after_step. }
  split; [exact Hrepo|].
  unfold TodoService.get_todo, bind.
  destruct (TodoRepository.get_todo_by_id todo_id (step now op coll))
    as [r1 c1].
  destruct (TodoRepository.get_todo_by_id todo_id coll) as [r2 c2].
  simpl in Hrepo. subst r2.
  destruct r1 as [[x|]|e]; reflexivity.
Qed.

Lemma other_todos_untouched_witness :
  (TodoRepository.get_todo_by_id (ObjectId.str 7%N)
     (step 200 (Delete (ObjectId.str 8%N)) sample_store)).1
  = (TodoRepository.get_todo_by_id (ObjectId.str 7%N) sample_store).1 ∧
  (TodoService.get_todo (ObjectId.str 7%N)
     (step 200 (Delete (ObjectId.str 8%N)) sample_store)).1
  = (TodoService.get_todo (ObjectId.str 7%N) sample_store).1.
Proof.
  apply (other_todos_untouched 200 (Delete (ObjectId.str 8%N)) sample_store
           (ObjectId.str 7%N) 7%N).
  - reflexivity.
  - intros H. discriminate H.
Defined.

(** ** Listings at and beyond the bounds of the route *)

(** The repository listing, with the query it builds read through
    [matches_filter]: the matching documents in sorted order, then the skip,
    the limit and the reading of the window. *)
Lemma get_todos_unfold (status : option TodoStatus)
    (priority : option TodoPriority) (sort_by sort_order : string)
    (coll : Collection) :
  ∃ docs : Collection,
    docs ≡ₚ List.filter (matches_filter status priority) coll ∧
    ∀ skip limit : Z,
      TodoRepository.get_todos skip limit status priority sort_by sort_order
        coll
      = (match Store.skip skip docs with
         | Ok ds =>
             match TodoRepository.collect (Store.limit limit ds) with
             | Ok ts =>
                 Ok (ts,
                     Z.of_nat (length (List.filter
                                         (matches_filter status priority) coll)))
             | Raise e => Raise e
             end
         | Raise e => Raise e
         end, coll).
Proof.
  unfold TodoRepository.get_todos, bind, read, lift, ret. cbv zeta.
  match goal with
  | |- context [Store.count_documents ?q0 _] => set (q := q0)
  end.
  match goal with
  | |- context [Store.sort ?s0 _] => set (sq := s0)
  end.
  assert (List.filter (Store.matches q) coll
          = List.filter (matches_filter status priority) coll) as Hq.
  { apply filter_ext. intros d. apply filter_query_matches. }
  clearbody q sq.
  exists (Store.sort sq (Store.find q coll)). split.
  { rewrite sort_Permutation. unfold Store.find. by rewrite Hq. }
  intros skip limit. unfold Store.count_documents. rewrite Hq.
  destruct (Store.skip skip _) as [ds|e]; [|reflexivity].
  by destruct (TodoRepository.collect _).
Qed.

(** X6.  With size 0 (which the route refuses, the service does not) the
    listing has no limit and the page count divides by zero: over
    well-formed documents, [get_todos] raises [ZeroDivisionError] when at
    least one document matches the filter, whatever the page; when none
    matches it returns an empty listing with total 0 and pages 1. *)
Theorem zero_size_listing (page : Z) (status : option TodoStatus)
    (priority : option TodoPriority) (sort_by sort_order : string)
    (coll : Collection) :
  Forall well_formed coll →
  (List.filter (matches_filter status priority) coll ≠ [] →
   TodoService.get_todos page 0 status priority sort_by sort_order coll
   = (Raise ZeroDivisionError, coll)) ∧
  (List.filter (matches_filter status priority) coll = [] →
   TodoService.get_todos page 0 status priority sort_by sort_order coll
   = (Ok {| TodoListResponse.todos := [];
            TodoListResponse.total := 0;
            TodoListResponse.page := page;
            TodoListResponse.size := 0;
            TodoListResponse.pages := 1 |}, coll)).
Proof.
  intros Hwf.
  destruct (get_todos_unfold status priority sort_by sort_order coll)
    as (docs & Hperm & Hget).
  assert (Forall well_formed docs) as Hdocs.
  { rewrite Hperm. apply Forall_forall. intros d Hd%list_elem_of_In%filter_In.
    rewrite Forall_forall in Hwf. apply Hwf, list_elem_of_In, Hd. }
  destruct (collect_total docs Hdocs) as [all Hall].
  pose proof (collect_length _ _ Hall) as Hlen.
  rewrite (Permutation_length Hperm) in Hlen.
  unfold TodoService.get_todos, bind. cbv zeta. rewrite Hget.
  replace ((page - 1) * 0) with 0 by lia.
  unfold Store.skip, Store.limit. cbn [Z.ltb Z.eqb Z.compare Z.to_nat].
  rewrite drop_0, Hall.
  destruct (List.filter (matches_filter status priority) coll) as [|d l].
  - split; [done|]. intros _. destruct all; [reflexivity | discriminate Hlen].
  - split; [|done]. intros _. reflexivity.
Qed.

Lemma zero_size_listing_witness :
  (List.filter (matches_filter None None) sample_store ≠ [] →
   TodoService.get_todos 1 0 None None "created_at" "desc" sample_store
   = (Raise ZeroDivisionError, sample_store)) ∧
  (List.filter (matches_filter None None) sample_store = [] →
   TodoService.get_todos 1 0 None None "created_at" "desc" sample_store
   = (Ok {| TodoListResponse.todos := [];
            TodoListResponse.total := 0;
            TodoListResponse.page := 1;
            TodoListResponse.size := 0;
            TodoListResponse.pages := 1 |}, sample_store)).
Proof.
  apply (zero_size_listing 1 None None "created_at" "desc" sample_store).
  apply Forall_cons. split; [|constructor].
  exists (new_record 7%N 100 sample_create). split; reflexivity.
Defined.

(** X7.  A page below 1 (which the route refuses, the service does not)
    with a size from 1 makes the skip negative, and the cursor refuses it:
    [get_todos] raises [ValueError], on any collection, reading nothing. *)
Theorem page_below_one_rejected (page size : Z)
    (status : option TodoStatus) (priority : option TodoPriority)
    (sort_by sort_order : string) (coll : Collection) :
  page < 1 → 1 ≤ size →
  TodoRepository.get_todos ((page - 1) * size) size status priority sort_by
    sort_order coll = (Raise ValueError, coll) ∧
  TodoService.get_todos page size status priority sort_by sort_order coll
  = (Raise ValueError, coll).
Proof.
  intros Hpage Hsize.
  destruct (get_todos_unfold status priority sort_by sort_order coll)
    as (docs & _ & Hget).
  assert (TodoRepository.get_todos ((page - 1) * size) size status priority
            sort_by sort_order coll = (Raise ValueError, coll)) as Hrepo.
  { rewrite Hget. unfold Store.skip.
    destruct (Z.ltb_spec ((page - 1) * size) 0) as [_|?]; [reflexivity | nia]. }
  split; [exact Hrepo|].
  unfold TodoService.get_todos, bind. cbv zeta. by rewrite Hrepo.
Qed.

Lemma page_below_one_rejected_witness :
  TodoRepository.get_todos ((0 - 1) * 10) 10 None None "created_at" "desc"
    sample_store = (Raise ValueError, sample_store) ∧
  TodoService.get_todos 0 10 None None "created_at" "desc" sample_store
  = (Raise ValueError, sample_store).
Proof.
  apply (page_below_one_rejected 0 10 None None "created_at" "desc"
           sample_store); lia.
Defined.

(** ** What a listing holds *)

Lemma filter_reads_status (status : option TodoStatus)
    (priority : option TodoPriority) (d : gmap string Value) (t : TodoInDB.t) :
  TodoInDB.of_dict d = Ok t →
  matches_filter status priority d = true →
  (∀ s, status = Some s → TodoInDB.status t = s) ∧
  (∀ p, priority = Some p → TodoInDB.priority t = p).
Proof.
  intros (_ & _ & _ & Hs & Hp & _)%of_dict_Ok [H1 H2]%andb_prop. split.
  - intros s ->. apply bool_decide_eq_true in H1. rewrite H1 in Hs.
    simpl in Hs. rewrite TodoStatus_of_value_value in Hs. congruence.
  - intros p ->. apply bool_decide_eq_true in H2. rewrite H2 in Hp.
    simpl in Hp. rewrite TodoPriority_of_value_value in Hp. congruence.
Qed.

Lemma elem_of_window {A} (x : A) (n k : nat) (l : list A) :
  x ∈ take n (drop k l) → x ∈ l.
Proof.
  intros (i & Hi & _)%elem_of_take. rewrite lookup_drop in Hi.
  by eapply list_elem_of_lookup_2.
Qed.

(** X8.  A listing returns only stored todos that pass the filter: over
    well-formed documents, for a page from 1 and a size from 1, every item
    of the page is the response form of a stored record, with the
    requested status when one is requested and the requested priority when
    one is requested; and the page holds at most size items. *)
Theorem listing_respects_filter (page size : Z) (status : option TodoStatus)
    (priority : option TodoPriority) (sort_by sort_order : string)
    (coll : Collection) :
  Forall well_formed coll → 1 ≤ page → 1 ≤ size →
  ∃ r : TodoListResponse.t,
    TodoService.get_todos page size status priority sort_by sort_order coll
    = (Ok r, coll) ∧
    Z.of_nat (length (TodoListResponse.todos r)) ≤ size ∧
    ∀ item, item ∈ TodoListResponse.todos r →
      ∃ t, record_of coll t ∧
           item = TodoService._convert_to_response t ∧
           (∀ s, status = Some s → TodoInDB.status t = s) ∧
           (∀ p, priority = Some p → TodoInDB.priority t = p).
Proof.
  intros Hwf Hpage Hsize.
  destruct (get_todos_unfold status priority sort_by sort_order coll)
    as (docs & Hperm & Hget).
  assert (∀ d, d ∈ docs →
               d ∈ coll ∧ matches_filter status priority d = true) as Hin.
  { intros d Hd. rewrite Hperm in Hd.
    apply list_elem_of_In, filter_In in Hd as [Hd Hm].
    split; [by apply list_elem_of_In | exact Hm]. }
  assert (Forall well_formed docs) as Hdocs.
  { apply Forall_forall. intros d [Hd _]%Hin.
    rewrite Forall_forall in Hwf. by apply Hwf. }
  destruct (collect_total docs Hdocs) as [all Hall].
  pose proof (collect_take_drop docs all (Z.to_nat size)
                (Z.to_nat ((page - 1) * size)) Hall) as Hwin.
  unfold TodoService.get_todos, bind. cbv zeta. rewrite Hget.
  unfold Store.skip, Store.limit.
  destruct (Z.ltb_spec ((page - 1) * size) 0) as [?|_]; [nia|].
  destruct (Z.eqb_spec size 0) as [?|_]; [lia|].
  rewrite Z.abs_eq by lia. rewrite Hwin. unfold lift, ret, ceil_div.
  destruct (Z.eqb_spec size 0) as [?|_]; [lia|].
  exists {| TodoListResponse.todos :=
              map TodoService._convert_to_response
                (take (Z.to_nat size) (drop (Z.to_nat ((page - 1) * size)) all));
            TodoListResponse.total :=
              Z.of_nat (length (List.filter (matches_filter status priority)
                                  coll));
            TodoListResponse.page := page;
            TodoListResponse.size := size;
            TodoListResponse.pages :=
              if Z.of_nat (length (List.filter (matches_filter status priority)
                                     coll)) >? 0
              then - (- Z.of_nat (length (List.filter
                                            (matches_filter status priority)
                                            coll)) / size)
              else 1 |}.
  split.
  { destruct (_ >? 0); reflexivity. }
  cbn [TodoListResponse.todos]. split.
  { rewrite length_map, length_take. lia. }
  intros item (t & -> & Ht)%list_elem_of_fmap.
  apply elem_of_window in Ht.
  apply (collect_elem_of _ _ _ Hall) in Ht as (d & Hd & Hdt).
  destruct (Hin d Hd) as [Hdc Hm].
  exists t. split; [by exists d|]. split; [reflexivity|].
  by apply (filter_reads_status status priority d).
Qed.

Lemma listing_respects_filter_witness :
  ∃ r : TodoListResponse.t,
    TodoService.get_todos 1 10 (Some PENDING) None "created_at" "desc"
      sample_store = (Ok r, sample_store) ∧
    Z.of_nat (length (TodoListResponse.todos r)) ≤ 10 ∧
    ∀ item, item ∈ TodoListResponse.todos r →
      ∃ t, record_of sample_store t ∧
           item = TodoService._convert_to_response t ∧
           (∀ s, Some PENDING = Some s → TodoInDB.status t = s) ∧
           (∀ p, (None : option TodoPriority) = Some p →
                 TodoInDB.priority t = p).
Proof.
  apply (listing_respects_filter 1 10 (Some PENDING) None "created_at" "desc"
           sample_store).
  - apply Forall_cons. split; [|constructor].
    exists (new_record 7%N 100 sample_create). split; reflexivity.
  - lia.
  - lia.
Defined.

(** ** Identifiers in responses *)

(** X9.  Every stored todo can be fetched by the identifier text of its
    response form: in a store in order, for a stored record whose
    identifier is twelve bytes, [get_todo_by_id] on [str(id)] returns that
    record and [get_todo] on the [id] of its response returns that
    response.  So each item of a listing leads back to itself. *)
Theorem stored_record_fetchable (coll : Collection) (t : TodoInDB.t) :
  store_ok coll →
  record_of coll t →
  ObjectId.wf (TodoInDB.id t) →
  TodoRepository.get_todo_by_id (ObjectId.str (TodoInDB.id t)) coll
  = (Ok (Some t), coll) ∧
  TodoService.get_todo (TodoResponse.id (TodoService._convert_to_response t))
    coll
  = (Ok (Some (TodoService._convert_to_response t)), coll).
Proof.
  intros [Hwf Huniq] (d & Hd & Ht) Hid.
  apply list_elem_of_split in Hd as (l1 & l2 & ->).
  assert (has_id (TodoInDB.id t) d) as Hhas.
  { apply Forall_app in Hwf as [_ [(t' & Ht' & Hid') _]%Forall_cons].
    assert (t' = t) as -> by congruence. exact Hid'. }
  pose proof (unique_ids_rest _ _ _ _ Huniq Hhas) as Habs.
  apply Forall_app in Habs as [Habs _]. apply absent_no_match in Habs.
  assert (TodoRepository.get_todo_by_id (ObjectId.str (TodoInDB.id t))
            (l1 ++ d :: l2) = (Ok (Some t), l1 ++ d :: l2)) as Hget.
  { rewrite (get_todo_by_id_hit _ (TodoInDB.id t));
      [by rewrite Ht | by apply ObjectId_new_str | exact Habs | exact Hhas]. }
  split; [exact Hget|].
  unfold TodoService.get_todo, bind. cbn [TodoResponse.id
    TodoService._convert_to_response]. by rewrite Hget.
Qed.

Lemma stored_record_fetchable_witness :
  TodoRepository.get_todo_by_id
    (ObjectId.str (TodoInDB.id (new_record 7%N 100 sample_create)))
    sample_store
  = (Ok (Some (new_record 7%N 100 sample_create)), sample_store) ∧
  TodoService.get_todo
    (TodoResponse.id
       (TodoService._convert_to_response (new_record 7%N 100 sample_create)))
    sample_store
  = (Ok (Some (TodoService._convert_to_response
                 (new_record 7%N 100 sample_create))), sample_store).
Proof.
  apply (stored_record_fetchable sample_store
           (new_record 7%N 100 sample_create)).
  - split.
    + apply Forall_cons. split; [|constructor].
      exists (new_record 7%N 100 sample_create). split; reflexivity.
    + apply NoDup_singleton.
  - exists (new_document 7%N 100 sample_create).
    split; [apply list_elem_of_here | reflexivity].
  - reflexivity.
Defined.

(** X10.  [PyObjectId.validate] accepts an identifier as text and gives
    back the identifier: it reads the 24-character text of a twelve-byte
    identifier as that identifier, passes an [ObjectId] through, and
    rejects every string that is not a valid ObjectId. *)
Theorem validate_reads_identifier_text (o : ObjectId.t) :
  ObjectId.wf o →
  TodoInDB.parse_id (Some (VStr (ObjectId.str o))) = Ok o ∧
  TodoInDB.parse_id (Some (VOid o)) = Ok o ∧
  ∀ s, ObjectId.is_valid s = false →
       TodoInDB.parse_id (Some (VStr s)) = Raise ValidationError.
Proof.
  intros Hwf. split; [|split].
  - unfold TodoInDB.parse_id.
    by rewrite ObjectId_is_valid_str, ObjectId_new_str.
  - reflexivity.
  - intros s Hs. unfold TodoInDB.parse_id. by rewrite Hs.
Qed.

Lemma validate_reads_identifier_text_witness :
  TodoInDB.parse_id (Some (VStr (ObjectId.str 7%N))) = Ok 7%N ∧
  TodoInDB.parse_id (Some (VOid 7%N)) = Ok 7%N ∧
  ∀ s, ObjectId.is_valid s = false →
       TodoInDB.parse_id (Some (VStr s)) = Raise ValidationError.
Proof.
  apply (validate_reads_identifier_text 7%N). reflexivity.
Defined.

(** ** Deletion and the fetch *)

(** X11.  A deleted todo is gone: in a collection with unique identifiers,
    when [delete_todo] returns true the collection has one document less
    and a fetch by the same identifier returns absent, at the repository
    and through the service. *)
Theorem deleted_todo_is_gone (todo_id : string) (coll : Collection) :
  unique_ids coll →
  (TodoRepository.delete_todo todo_id coll).1 = Ok true →
  S (length (TodoRepository.delete_todo todo_id coll).2) = length coll ∧
  TodoRepository.get_todo_by_id todo_id
    (TodoRepository.delete_todo todo_id coll).2
  = (Ok None, (TodoRepository.delete_todo todo_id coll).2) ∧
  TodoService.get_todo todo_id (TodoService.delete_todo todo_id coll).2
  = (Ok None, (TodoRepository.delete_todo todo_id coll).2).
Proof.
  intros Huniq Hdel.
  destruct (ObjectId.is_valid todo_id) eqn:E.
  2: { unfold TodoRepository.delete_todo in Hdel. rewrite E in Hdel.
       discriminate Hdel. }
  destruct (ObjectId_is_valid_new _ E) as [o Ho].
  destruct (Store.find_one {["_id" := CEq (VOid o)]} coll) as [d|] eqn:Hf.
  2: { apply find_one_None, absent_no_match in Hf.
       rewrite (delete_todo_miss _ o) in Hdel by done. discriminate Hdel. }
  apply find_one_Some in Hf as (l1 & l2 & -> & Hm%matches_id & Hl1).
  apply absent_no_match in Hl1.
  pose proof (unique_ids_rest _ _ _ _ Huniq Hm) as Hrest.
  unfold TodoService.delete_todo.
  rewrite (delete_todo_hit _ o) by done. cbn [snd].
  assert (TodoRepository.get_todo_by_id todo_id (l1 ++ l2)
          = (Ok None, l1 ++ l2)) as Hget.
  { rewrite (get_todo_by_id_eq _ _ _ Ho).
    apply absent_no_match, find_one_None in Hrest. by rewrite Hrest. }
  split; [rewrite !length_app; simpl; lia|].
  split; [exact Hget|].
  unfold TodoService.get_todo, bind. by rewrite Hget.
Qed.

Lemma deleted_todo_is_gone_witness :
  S (length (TodoRepository.delete_todo (ObjectId.str 7%N) sample_store).2)
  = length sample_store ∧
  TodoRepository.get_todo_by_id (ObjectId.str 7%N)
    (TodoRepository.delete_todo (ObjectId.str 7%N) sample_store).2
  = (Ok None, (TodoRepository.delete_todo (ObjectId.str 7%N) sample_store).2) ∧
  TodoService.get_todo (ObjectId.str 7%N)
    (TodoService.delete_todo (ObjectId.str 7%N) sample_store).2
  = (Ok None, (TodoRepository.delete_todo (ObjectId.str 7%N) sample_store).2).
Proof.
  apply (deleted_todo_is_gone (ObjectId.str 7%N) sample_store).
  - apply NoDup_singleton.
  - vm_compute. reflexivity.
Defined.

(** ** The routes *)

(** X12.  With the database handle in place, the routes for one todo answer
    404 with detail ["Todo not found"], and write nothing, when the
    identifier is malformed or when no stored document carries it: the
    fetch, the update (whatever it supplies) and the deletion alike. *)
Theorem routes_answer_not_found (str_exn : exn → string) (db : Database.t)
    (now : Z) (todo_id : string) (data : TodoUpdate.t) (coll : Collection) :
  is_Some (Database.database db) →
  ObjectId.is_valid todo_id = false ∨
    (∃ o, ObjectId.new todo_id = Ok o ∧ absent o coll) →
  Endpoints.get_todo str_exn db todo_id coll
  = (HTTPException 404 "Todo not found", coll) ∧
  Endpoints.update_todo str_exn db now todo_id data coll
  = (HTTPException 404 "Todo not found", coll) ∧
  Endpoints.delete_todo str_exn db todo_id coll
  = (HTTPException 404 "Todo not found", coll).
Proof.
  intros [name Hdb] Hid.
  assert (TodoRepository.get_todo_by_id todo_id coll = (Ok None, coll) ∧
          TodoRepository.update_todo now todo_id data coll = (Ok None, coll) ∧
          TodoRepository.delete_todo todo_id coll = (Ok false, coll))
    as (Hget & Hupd & Hdel).
  { destruct Hid as [Hbad|(o & Ho & Habs)].
    - split; [by apply get_todo_by_id_invalid|].
      split; [by apply update_todo_invalid|].
      unfold TodoRepository.delete_todo. by rewrite Hbad.
    - split.
      { rewrite (get_todo_by_id_eq _ _ _ Ho).
        apply absent_no_match, find_one_None in Habs. by rewrite Habs. }
      split; [by apply (update_todo_miss _ _ _ o)|].
      by apply (delete_todo_miss _ o). }
  unfold Endpoints.get_todo, Endpoints.update_todo, Endpoints.delete_todo,
    TodoService.init, Database.get_database,
    TodoService.get_todo, TodoService.update_todo, TodoService.delete_todo,
    bind.
  rewrite Hdb, Hget, Hupd, Hdel. by repeat split.
Qed.

Lemma routes_answer_not_found_witness :
  Endpoints.get_todo sample_str_exn sample_db "not-a-valid-id" sample_store
  = (HTTPException 404 "Todo not found", sample_store) ∧
  Endpoints.update_todo sample_str_exn sample_db 200 "not-a-valid-id"
    (only_status COMPLETED) sample_store
  = (HTTPException 404 "Todo not found", sample_store) ∧
  Endpoints.delete_todo sample_str_exn sample_db "not-a-valid-id" sample_store
  = (HTTPException 404 "Todo not found", sample_store).
Proof.
  apply (routes_answer_not_found sample_str_exn sample_db 200 "not-a-valid-id"
           (only_status COMPLETED) sample_store).
  - by eexists.
  - left. reflexivity.
Defined.

(** X13.  When the database handle is missing, the service cannot be
    built: five routes turn the [RuntimeError] into an [HTTPException]
    500 whose detail names the operation, but the two routes whose
    parameter is called [status] (the listing and the listing by status)
    let an [AttributeError] escape instead, since their handler looks up
    the status code on that parameter.  Nothing is written. *)
Theorem routes_without_database (str_exn : exn → string) (db : Database.t)
    (fresh : ObjectId.t) (now : Z) (create : TodoCreate.t)
    (data : TodoUpdate.t) (todo_id : string) (page size : Z)
    (status : option TodoStatus) (priority : option TodoPriority)
    (sort_by sort_order : string) (s : TodoStatus) (coll : Collection) :
  Database.database db = None →
  Endpoints.get_todos db page size status priority sort_by sort_order
    coll = (Unhandled AttributeError, coll) ∧
  Endpoints.get_todos_by_status db s coll
  = (Unhandled AttributeError, coll) ∧
  Endpoints.create_todo str_exn db fresh now create coll
  = (HTTPException 500 ("Failed to create todo: " ++ str_exn RuntimeError)%string,
     coll) ∧
  Endpoints.get_todo str_exn db todo_id coll
  = (HTTPException 500
       ("Failed to retrieve todo: " ++ str_exn RuntimeError)%string, coll) ∧
  Endpoints.update_todo str_exn db now todo_id data coll
  = (HTTPException 500 ("Failed to update todo: " ++ str_exn RuntimeError)%string,
     coll) ∧
  Endpoints.delete_todo str_exn db todo_id coll
  = (HTTPException 500 ("Failed to delete todo: " ++ str_exn RuntimeError)%string,
     coll) ∧
  Endpoints.get_overdue_todos str_exn db now coll
  = (HTTPException 500
       ("Failed to retrieve overdue todos: " ++ str_exn RuntimeError)%string,
     coll).
Proof.
  intros Hdb.
  unfold Endpoints.get_todos, Endpoints.get_todos_by_status,
    Endpoints.create_todo, Endpoints.get_todo, Endpoints.update_todo,
    Endpoints.delete_todo, Endpoints.get_overdue_todos, Endpoints.failed,
    TodoService.init, Database.get_database.
  rewrite Hdb. by repeat split.
Qed.

Lemma routes_without_database_witness :
  Endpoints.get_todos Database.initial 1 10 None None
    "created_at" "desc" sample_store = (Unhandled AttributeError, sample_store) ∧
  Endpoints.get_todos_by_status Database.initial PENDING
    sample_store = (Unhandled AttributeError, sample_store) ∧
  Endpoints.create_todo sample_str_exn Database.initial 8%N 200 sample_create
    sample_store
  = (HTTPException 500
       ("Failed to create todo: " ++ sample_str_exn RuntimeError)%string,
     sample_store) ∧
  Endpoints.get_todo sample_str_exn Database.initial (ObjectId.str 7%N)
    sample_store
  = (HTTPException 500
       ("Failed to retrieve todo: " ++ sample_str_exn RuntimeError)%string,
     sample_store) ∧
  Endpoints.update_todo sample_str_exn Database.initial 200 (ObjectId.str 7%N)
    (only_status COMPLETED) sample_store
  = (HTTPException 500
       ("Failed to update todo: " ++ sample_str_exn RuntimeError)%string,
     sample_store) ∧
  Endpoints.delete_todo sample_str_exn Database.initial (ObjectId.str 7%N)
    sample_store
  = (HTTPException 500
       ("Failed to delete todo: " ++ sample_str_exn RuntimeError)%string,
     sample_store) ∧
  Endpoints.get_overdue_todos sample_str_exn Database.initial 200 sample_store
  = (HTTPException 500
       ("Failed to retrieve overdue todos: "
        ++ sample_str_exn RuntimeError)%string,
     sample_store).
Proof.
  apply (routes_without_database sample_str_exn Database.initial 8%N 200
           sample_create (only_status COMPLETED) (ObjectId.str 7%N) 1 10
           None None "created_at" "desc" PENDING sample_store).
  reflexivity.
Defined.

(** X14.  Deleting through the route: for a todo that is stored (in a
    collection with unique identifiers, the database handle in place) the
    first DELETE answers 204 and removes one document, and a second DELETE
    of the same identifier answers 404 with detail ["Todo not found"]. *)
Theorem delete_route_twice (str_exn : exn → string) (db : Database.t)
    (todo_id : string) (o : ObjectId.t) (coll : Collection) :
  is_Some (Database.database db) →
  unique_ids coll →
  ObjectId.new todo_id = Ok o →
  ¬ absent o coll →
  ∃ coll',
    Endpoints.delete_todo str_exn db todo_id coll = (Response 204 (), coll') ∧
    S (length coll') = length coll ∧
    Endpoints.delete_todo str_exn db todo_id coll'
    = (HTTPException 404 "Todo not found", coll').
Proof.
  intros [name Hdb] Huniq Ho (l1 & d & l2 & -> & Hl1 & Hd)%first_with_id.
  pose proof (unique_ids_rest _ _ _ _ Huniq Hd) as Hrest.
  exists (l1 ++ l2).
  unfold Endpoints.delete_todo, TodoService.init, Database.get_database,
    TodoService.delete_todo.
  rewrite Hdb, (delete_todo_hit _ o), (delete_todo_miss _ o) by done.
  split; [reflexivity|]. split; [|reflexivity].
  rewrite !length_app. simpl. lia.
Qed.

Lemma delete_route_twice_witness :
  ∃ coll',
    Endpoints.delete_todo sample_str_exn sample_db (ObjectId.str 7%N)
      sample_store = (Response 204 (), coll') ∧
    S (length coll') = length sample_store ∧
    Endpoints.delete_todo sample_str_exn sample_db (ObjectId.str 7%N) coll'
    = (HTTPException 404 "Todo not found", coll').
Proof.
  apply (delete_route_twice sample_str_exn sample_db (ObjectId.str 7%N) 7%N
           sample_store).
  - by eexists.
  - apply NoDup_singleton.
  - reflexivity.
  - intros Habs. apply Forall_inv in Habs. apply Habs. reflexivity.
Defined.

(** ** The database handle *)



(** ** The users application *)

(** X16.  The users application does not guard the identifier: for a
    string that is not a valid ObjectId, [get_user] and [delete_user] raise
    [InvalidId] (they do not return absent or false), and the routes
    [read_user] and [delete] let it escape rather than answer 404.
    Nothing is written. *)
Theorem users_malformed_id_raises (str_datetime : Z → string) (id : string)
    (coll : Collection) :
  ObjectId.is_valid id = false →
  Users.get_user str_datetime id coll = (Raise InvalidId, coll) ∧
  Users.delete_user id coll = (Raise InvalidId, coll) ∧
  Users.read_user str_datetime id coll = (Unhandled InvalidId, coll) ∧
  Users.delete id coll = (Unhandled InvalidId, coll).
Proof.
  intros Hbad.
  assert (ObjectId.new id = Raise InvalidId) as Hnew.
  { unfold ObjectId.is_valid, ObjectId.new in *.
    destruct (Nat.eqb _ 24); [|done]. by destruct (ObjectId.fromhex _ _). }
  unfold Users.read_user, Users.delete, Users.run_route, Users.get_user,
    Users.delete_user, bind, lift.
  rewrite Hnew. by repeat split.
Qed.

Lemma users_malformed_id_raises_witness :
  Users.get_user sample_str_datetime "not-a-valid-id" sample_store
  = (Raise InvalidId, sample_store) ∧
  Users.delete_user "not-a-valid-id" sample_store
  = (Raise InvalidId, sample_store) ∧
  Users.read_user sample_str_datetime "not-a-valid-id" sample_store
  = (Unhandled InvalidId, sample_store) ∧
  Users.delete "not-a-valid-id" sample_store
  = (Unhandled InvalidId, sample_store).
Proof.
  apply (users_malformed_id_raises sample_str_datetime "not-a-valid-id"
           sample_store).
  reflexivity.
Defined.

Lemma user_document_lookups (fresh : ObjectId.t) (user : Users.User) :
  let doc := <["_id" := VOid fresh]> (Users.User_dict user) in
  doc !! "_id" = Some (VOid fresh) ∧
  doc !! "name" = Some (VStr (Users.name user)) ∧
  doc !! "email" = Some (VStr (Users.email user)).
Proof. unfold Users.User_dict. cbv zeta. by simplify_map_eq. Qed.

(** X17.  Creating a user and fetching it by the returned id: with an
    identifier generated by the driver (twelve bytes, not yet in the
    collection), [create_user] appends one document and returns the
    dictionary with the id as text, the name and the email; [get_user] on
    that id returns the same dictionary, and so do the routes, with
    status 200. *)
Theorem user_create_then_get (str_datetime : Z → string) (fresh : ObjectId.t)
    (user : Users.User) (coll : Collection) :
  ObjectId.wf fresh →
  absent fresh coll →
  ∃ (u : gmap string Value) (coll' : Collection),
    u = <["id" := VStr (ObjectId.str fresh)]>
          (<["name" := VStr (Users.name user)]>
             (<["email" := VStr (Users.email user)]> ∅)) ∧
    length coll' = S (length coll) ∧
    Users.create_user str_datetime fresh user coll = (Ok u, coll') ∧
    Users.get_user str_datetime (ObjectId.str fresh) coll' = (Ok (Some u), coll') ∧
    Users.create str_datetime fresh user coll = (Response 200 u, coll') ∧
    Users.read_user str_datetime (ObjectId.str fresh) coll'
    = (Response 200 u, coll').
Proof.
  intros Hwf Habs.
  destruct (user_document_lookups fresh user) as (Hi & Hn & He).
  set (doc := <["_id" := VOid fresh]> (Users.User_dict user)) in *.
  assert (Users.User_dict user !! "_id" = None) as Hnone.
  { unfold Users.User_dict. by simplify_map_eq. }
  assert (doc ≠ ∅) as Hne.
  { intros Hempty. rewrite Hempty, lookup_empty in Hi. discriminate Hi. }
  assert (Users.user_helper str_datetime doc
          = Ok (<["id" := VStr (ObjectId.str fresh)]>
                  (<["name" := VStr (Users.name user)]>
                     (<["email" := VStr (Users.email user)]> ∅)))) as Hhelp.
  { unfold Users.user_helper. by rewrite Hi, Hn, He. }
  assert (Store.find_one {["_id" := CEq (VOid fresh)]} (coll ++ [doc])
          = Some doc) as Hfind.
  { apply find_one_hit; [by apply absent_no_match | by apply matches_id]. }
  assert (Store.insert_one fresh (Users.User_dict user) coll
          = (Ok (VOid fresh), coll ++ [doc])) as Hins.
  { unfold Store.insert_one. rewrite Hnone. fold doc. rewrite Hi. simpl.
    by rewrite existsb_field_eq_absent. }
  clearbody doc.
  assert (Users.create_user str_datetime fresh user coll
          = (Ok (<["id" := VStr (ObjectId.str fresh)]>
                   (<["name" := VStr (Users.name user)]>
                      (<["email" := VStr (Users.email user)]> ∅))),
             coll ++ [doc])) as Hcreate.
  { unfold Users.create_user, bind, read, lift.
    by rewrite Hins, Hfind, Hhelp. }
  assert (Users.get_user str_datetime (ObjectId.str fresh) (coll ++ [doc])
          = (Ok (Some (<["id" := VStr (ObjectId.str fresh)]>
                         (<["name" := VStr (Users.name user)]>
                            (<["email" := VStr (Users.email user)]> ∅)))),
             coll ++ [doc])) as Hget.
  { unfold Users.get_user, bind, read, lift, ret.
    rewrite ObjectId_new_str, Hfind by done.
    destruct (decide (doc = ∅)) as [?|_]; [contradiction|].
    by rewrite Hhelp. }
  eexists _, (coll ++ [doc]).
  split; [reflexivity|].
  split; [rewrite length_app; simpl; lia|].
  split; [exact Hcreate|]. split; [exact Hget|].
  unfold Users.create, Users.read_user, Users.run_route.
  by rewrite Hcreate, Hget.
Qed.

Lemma user_create_then_get_witness :
  ∃ (u : gmap string Value) (coll' : Collection),
    u = <["id" := VStr (ObjectId.str 9%N)]>
          (<["name" := VStr (Users.name sample_user)]>
             (<["email" := VStr (Users.email sample_user)]> ∅)) ∧
    length coll' = S (length ([] : Collection)) ∧
    Users.create_user sample_str_datetime 9%N sample_user [] = (Ok u, coll') ∧
    Users.get_user sample_str_datetime (ObjectId.str 9%N) coll'
    = (Ok (Some u), coll') ∧
    Users.create sample_str_datetime 9%N sample_user [] = (Response 200 u, coll') ∧
    Users.read_user sample_str_datetime (ObjectId.str 9%N) coll'
    = (Response 200 u, coll').
Proof.
  apply (user_create_then_get sample_str_datetime 9%N sample_user []).
  - reflexivity.
  - constructor.
Defined.

Lemma user_helper_Ok (str_datetime : Z → string) (d : gmap string Value) :
  has_user_keys d → ∃ u, Users.user_helper str_datetime d = Ok u.
Proof.
  intros ([i Hi] & [n Hn] & [e He]). unfold Users.user_helper.
  rewrite Hi, Hn, He. by eexists.
Qed.

Lemma user_helper_KeyError (str_datetime : Z → string)
    (d : gmap string Value) :
  ¬ has_user_keys d → Users.user_helper str_datetime d = Raise KeyError.
Proof.
  intros Hno. unfold Users.user_helper.
  destruct (d !! "_id") as [i|] eqn:Hi; [|reflexivity].
  destruct (d !! "name") as [n|] eqn:Hn; [|reflexivity].
  destruct (d !! "email") as [e|] eqn:He; [|reflexivity].
  destruct Hno. unfold has_user_keys. rewrite Hi, Hn, He. by repeat split.
Qed.

Lemma helper_all_result (str_datetime : Z → string) (coll : Collection) :
  (Forall has_user_keys coll →
   ∃ us, Users.helper_all str_datetime coll = Ok us ∧
         length us = length coll) ∧
  (¬ Forall has_user_keys coll →
   Users.helper_all str_datetime coll = Raise KeyError).
Proof.
  induction coll as [|d coll [IHok IHbad]]; simpl.
  { split; [by exists [] | intros H; destruct H; constructor]. }
  split.
  - intros [Hd Hc]%Forall_cons.
    destruct (user_helper_Ok str_datetime d Hd) as [u ->].
    destruct (IHok Hc) as (us & -> & Hlen).
    exists (u :: us). split; [reflexivity | simpl; by rewrite Hlen].
  - intros Hno.
    destruct (Users.user_helper str_datetime d) as [u|e] eqn:Hu.
    + assert (has_user_keys d) as Hd.
      { unfold has_user_keys, Users.user_helper in *.
        destruct (d !! "_id"); [|discriminate Hu].
        destruct (d !! "name"); [|discriminate Hu].
        destruct (d !! "email"); [|discriminate Hu]. by repeat split. }
      rewrite IHbad; [reflexivity|].
      intros Hc. apply Hno. by apply Forall_cons.
    + unfold Users.user_helper in Hu.
      destruct (d !! "_id"); [|by injection Hu as <-].
      destruct (d !! "name"); [|by injection Hu as <-].
      destruct (d !! "email"); [discriminate Hu | by injection Hu as <-].
Qed.

(** X18.  The listing of users is all or nothing: when every document of
    the collection has the keys [_id], [name] and [email], [get_users]
    returns one dictionary per document; as soon as one document lacks one
    of them the whole listing raises [KeyError] (and the route
    [read_users] lets it escape).  The collection is not touched. *)
Theorem get_users_all_or_nothing (str_datetime : Z → string)
    (coll : Collection) :
  (Forall has_user_keys coll →
   ∃ us, Users.get_users str_datetime coll = (Ok us, coll) ∧
         length us = length coll ∧
         Users.read_users str_datetime coll = (Response 200 us, coll)) ∧
  (¬ Forall has_user_keys coll →
   Users.get_users str_datetime coll = (Raise KeyError, coll) ∧
   Users.read_users str_datetime coll = (Unhandled KeyError, coll)).
Proof.
  destruct (helper_all_result str_datetime coll) as [Hok Hbad].
  unfold Users.read_users, Users.run_route, Users.get_users, bind, read, lift.
  rewrite find_all. split.
  - intros Hc. destruct (Hok Hc) as (us & -> & Hlen). by exists us.
  - intros Hc. by rewrite (Hbad Hc).
Qed.

Lemma get_users_all_or_nothing_witness :
  ∃ us, Users.get_users sample_str_datetime [sample_user_document]
        = (Ok us, [sample_user_document]) ∧
        length us = length [sample_user_document] ∧
        Users.read_users sample_str_datetime [sample_user_document]
        = (Response 200 us, [sample_user_document]).
Proof.
  apply (proj1 (get_users_all_or_nothing sample_str_datetime
                  [sample_user_document])).
  apply Forall_cons. split; [|constructor].
  repeat split; by eexists.
Defined.

(** ** Statuses partition the todos *)

Lemma status_partition_length (all : list TodoInDB.t) :
  (length (List.filter (λ r, bool_decide (TodoInDB.status r = PENDING)) all)
   + length (List.filter (λ r, bool_decide (TodoInDB.status r = IN_PROGRESS)) all)
   + length (List.filter (λ r, bool_decide (TodoInDB.status r = COMPLETED)) all)
   = length all)%nat.
Proof.
  induction all as [|r all IH]; [reflexivity|].
  cbn [List.filter]. destruct (TodoInDB.status r); simpl; lia.
Qed.

(** X19.  Every stored todo is listed under exactly one status: in a
    reachable store the three listings by status (pending, in progress,
    completed) together hold as many todos as the collection has
    documents. *)
Theorem statuses_partition (t : Z) (coll : Collection) :
  reachable t coll →
  ∃ pending in_progress completed : list TodoInDB.t,
    TodoRepository.get_todos_by_status PENDING coll = (Ok pending, coll) ∧
    TodoRepository.get_todos_by_status IN_PROGRESS coll
    = (Ok in_progress, coll) ∧
    TodoRepository.get_todos_by_status COMPLETED coll = (Ok completed, coll) ∧
    (length pending + length in_progress + length completed
     = length coll)%nat.
Proof.
  intros Hreach.
  destruct (reachable_invariant t coll Hreach) as [Hts _].
  apply timestamps_ok_well_formed in Hts.
  pose proof (reachable_explicit t coll Hreach) as Hex.
  destruct (by_status_filter PENDING coll Hts Hex) as (all & Hall & H1).
  destruct (by_status_filter IN_PROGRESS coll Hts Hex) as (all2 & Hall2 & H2).
  destruct (by_status_filter COMPLETED coll Hts Hex) as (all3 & Hall3 & H3).
  assert (all2 = all) as -> by congruence.
  assert (all3 = all) as -> by congruence.
  eexists _, _, _.
  unfold TodoRepository.get_todos_by_status, bind, read, lift.
  rewrite H1, H2, H3.
  split; [reflexivity|]. split; [reflexivity|]. split; [reflexivity|].
  rewrite status_partition_length. by apply collect_length.
Qed.

Lemma statuses_partition_witness :
  ∃ pending in_progress completed : list TodoInDB.t,
    TodoRepository.get_todos_by_status PENDING
      (step 100 (Create 7%N sample_create) [])
    = (Ok pending, step 100 (Create 7%N sample_create) []) ∧
    TodoRepository.get_todos_by_status IN_PROGRESS
      (step 100 (Create 7%N sample_create) [])
    = (Ok in_progress, step 100 (Create 7%N sample_create) []) ∧
    TodoRepository.get_todos_by_status COMPLETED
      (step 100 (Create 7%N sample_create) [])
    = (Ok completed, step 100 (Create 7%N sample_create) []) ∧
    (length pending + length in_progress + length completed
     = length (step 100 (Create 7%N sample_create) []))%nat.
Proof.
  apply (statuses_partition 100 (step 100 (Create 7%N sample_create) [])).
  apply (reachable_step 0 100 (Create 7%N sample_create) []).
  - apply reachable_empty.
  - lia.
  - reflexivity.
Defined.

(** X20.  The paginated listing and the listing by status agree: over
    well-formed documents, the total that [get_todos] reports for a status
    filter (and no priority filter) is the number of todos that
    [get_todos_by_status] returns for that status. *)
Theorem listing_total_is_by_status_length (page size : Z) (s : TodoStatus)
    (sort_by sort_order : string) (coll : Collection) :
  Forall well_formed coll → 1 ≤ page → 1 ≤ size →
  ∃ (r : TodoListResponse.t) (ts : list TodoResponse.t),
    TodoService.get_todos page size (Some s) None sort_by sort_order coll
    = (Ok r, coll) ∧
    TodoService.get_todos_by_status s coll = (Ok ts, coll) ∧
    TodoListResponse.total r = Z.of_nat (length ts).
Proof.
  intros Hwf Hpage Hsize.
  destruct (get_todos_window (Some s) None sort_by sort_order coll Hwf)
    as (all & _ & Hwin).
  destruct (collect_total
              (Store.find {["status" := CEq (VStr (TodoStatus_value s))]} coll))
    as [ts Hts]; [by apply find_well_formed|].
  eexists _, (map TodoService._convert_to_response ts).
  split; [by apply (service_get_todos_ok _ _ _ _ _ all)|].
  split.
  { unfold TodoService.get_todos_by_status,
      TodoRepository.get_todos_by_status, bind, read, lift. by rewrite Hts. }
  cbn [TodoListResponse.total]. f_equal.
  rewrite length_map, (collect_length _ _ Hts). unfold Store.find.
  f_equal. apply filter_ext. intros d. symmetry.
  apply (filter_query_matches (Some s) None d).
Qed.

Lemma listing_total_is_by_status_length_witness :
  ∃ (r : TodoListResponse.t) (ts : list TodoResponse.t),
    TodoService.get_todos 1 10 (Some PENDING) None "created_at" "desc"
      sample_store = (Ok r, sample_store) ∧
    TodoService.get_todos_by_status PENDING sample_store = (Ok ts, sample_store) ∧
    TodoListResponse.total r = Z.of_nat (length ts).
Proof.
  apply (listing_total_is_by_status_length 1 10 PENDING "created_at" "desc"
           sample_store).
  - apply Forall_cons. split; [|constructor].
    exists (new_record 7%N 100 sample_create). split; reflexivity.
  - lia.
  - lia.
Defined.

(** X21.  Through the routes, with the database handle in place: POST of
    a valid input (the driver generating a fresh twelve-byte identifier)
    answers 201 with the created todo, whose two timestamps are the
    instant of the call, and GET of the id in that answer then answers
    200 with the same body. *)
Theorem create_route_then_get_route (str_exn : exn → string)
    (db : Database.t) (fresh : ObjectId.t) (now : Z) (data : TodoCreate.t)
    (coll : Collection) :
  is_Some (Database.database db) →
  TodoCreate.valid data = true →
  ObjectId.wf fresh →
  absent fresh coll →
  ∃ (todo : TodoResponse.t) (coll' : Collection),
    Endpoints.create_todo str_exn db fresh now data coll
    = (Response 201 todo, coll') ∧
    TodoResponse.created_at todo = now ∧
    TodoResponse.updated_at todo = now ∧
    Endpoints.get_todo str_exn db (TodoResponse.id todo) coll'
    = (Response 200 todo, coll').
Proof.
  intros [name Hdb] Hv Hwf Habs.
  exists (TodoService._convert_to_response (new_record fresh now data)),
    (coll ++ [new_document fresh now data]).
  unfold Endpoints.create_todo, Endpoints.get_todo, TodoService.init,
    Database.get_database.
  rewrite Hdb, service_create_todo_ok by done.
  split; [reflexivity|]. split; [reflexivity|]. split; [reflexivity|].
  unfold TodoService.get_todo, bind.
  cbn [TodoResponse.id TodoService._convert_to_response new_record TodoInDB.id].
  rewrite (get_todo_by_id_hit _ fresh);
    [| by apply ObjectId_new_str | by apply absent_no_match
     | by apply has_id_new_document].
  by rewrite of_dict_new_document.
Qed.

Lemma create_route_then_get_route_witness :
  ∃ (todo : TodoResponse.t) (coll' : Collection),
    Endpoints.create_todo sample_str_exn sample_db 8%N 200 sample_create
      sample_store = (Response 201 todo, coll') ∧
    TodoResponse.created_at todo = 200 ∧
    TodoResponse.updated_at todo = 200 ∧
    Endpoints.get_todo sample_str_exn sample_db (TodoResponse.id todo) coll'
    = (Response 200 todo, coll').
Proof.
  apply (create_route_then_get_route sample_str_exn sample_db 8%N 200
           sample_create sample_store).
  - by eexists.
  - reflexivity.
  - reflexivity.
  - constructor; [|constructor]. intros H. discriminate H.
Defined.
